(** * openweather_exporter: the refresh cycle of [main.go]

    A shallow embedding of [fetchWeatherData], [fetchAirPollutionData],
    [updateMetrics] and the configuration and refresh loop of [main], with
    the parts of the Go libraries they call:
    - [encoding/json] decoding into the two response structs, over parsed
      JSON values;
    - [net/http]'s [Get], as an oracle held by the world;
    - the Prometheus gauge vectors, as one finite map from
      (metric name, label values) to the last value set.

    The effects run in a state monad over [world], which also records the
    chronological trace of network calls, gauge writes and log lines.

    Left out: the closing of the response body on return, which touches
    nothing modelled here; the panic of [WithLabelValues] on a wrong number
    of label values, which no call of the program can reach (lemma
    [writes_arity]); the scrape handler that runs beside the refresh. *)

From Stdlib Require Import ZArith String Ascii DecimalString SpecFloat.
From Stdlib Require Import DecimalPos DecimalZ.
From stdpp Require Import gmap strings list fin_maps.

Open Scope Z_scope.
Open Scope string_scope.

(** ** Go values *)

(** [float64], as IEEE 754 binary64 values. *)
Definition float64 : Type := spec_float.

(** The conversion [float64(n)] of an [int]: round to nearest, ties to even. *)
Definition float64_of_int (n : Z) : float64 := binary_normalize 53 1024 n 0 false.

(** The zero value of [float64], and the constant [1]. *)
Definition float64_zero : float64 := S754_zero false.
Definition float64_one : float64 := SFone 53 1024.

(** [strconv.Itoa]. *)
Definition Itoa (n : Z) : string := NilZero.string_of_int (Z.to_int n).

(** Go errors. [fmt.Errorf] keeps its format and its argument; the errors made
    by [net/http] and by the reader of a response body are known by their
    text only; of [json.UnmarshalTypeError] the [Value] field is kept. *)
Inductive error : Type :=
| libError (text : string)
| UnmarshalTypeError (Value : string)
| Errorf_w (format : string) (err : error)
| Errorf_d (format : string) (a : Z).

Inductive result (A : Type) : Type :=
| Ok (a : A)
| Err (e : error).
Arguments Ok {A} a.
Arguments Err {A} e.

#[export] Instance result_ret : MRet result := λ A a, Ok a.
#[export] Instance result_bind : MBind result := λ A B f r,
  match r with
  | Ok a => f a
  | Err e => Err e
  end.

(** ** JSON values, as [encoding/json] scans them *)

(** A number literal, with what [strconv.ParseInt(lit, 10, 64)] and
    [strconv.ParseFloat(lit, 64)] return on it ([None]: an error). *)
Record number : Type := Number {
  lit : string;
  ParseInt : option Z;
  ParseFloat : option float64
}.

(** A string holds its unquoted text; the members of an object are in
    document order, repeated keys included. *)
#[local] Unset Elimination Schemes.
Inductive json : Type :=
| JNull
| JBool (b : bool)
| JNumber (n : number)
| JString (s : string)
| JArray (elems : list json)
| JObject (members : list (string * json)).
#[local] Set Elimination Schemes.

(** The literal of an integer that fits an [int]. *)
Definition intLit (n : Z) : json :=
  JNumber (Number (Itoa n)
                  (if (Z.leb (- 2 ^ 63) n && Z.ltb n (2 ^ 63))%bool then Some n else None)
                  (match float64_of_int n with
                   | S754_infinity _ => None
                   | f => Some f
                   end)).

(** ** Decoding into Go values

    A decoder for a Go type takes the JSON value and the current content of
    the destination, and returns its new content: [encoding/json] writes into
    the destination in place, so a repeated key decodes into what the first
    occurrence left. The first type error is the one returned. *)
Definition decoder (T : Type) : Type := json → T → result T.

(** The [Value] of the type error for a JSON value of the wrong kind. *)
Definition kindOf (j : json) : string :=
  match j with
  | JNull => "null"
  | JBool _ => "bool"
  | JNumber _ => "number"
  | JString _ => "string"
  | JArray _ => "array"
  | JObject _ => "object"
  end.

Definition mismatch {T : Type} (j : json) : result T :=
  Err (UnmarshalTypeError (kindOf j)).

(** [null] leaves an [int], a [float64], a [string] or a struct as it is. *)
Definition decodeInt : decoder Z := λ j v,
  match j with
  | JNull => Ok v
  | JNumber n =>
      match ParseInt n with
      | Some i => Ok i
      | None => Err (UnmarshalTypeError ("number " +:+ lit n))
      end
  | _ => mismatch j
  end.

Definition decodeFloat64 : decoder float64 := λ j v,
  match j with
  | JNull => Ok v
  | JNumber n =>
      match ParseFloat n with
      | Some f => Ok f
      | None => Err (UnmarshalTypeError ("number " +:+ lit n))
      end
  | _ => mismatch j
  end.

Definition decodeString : decoder string := λ j v,
  match j with
  | JNull => Ok v
  | JString s => Ok s
  | _ => mismatch j
  end.

(** *** Field names *)

Definition byte (n : N) (c : ascii) : bool := N.eqb (N_of_ascii c) n.

Definition upper (c : ascii) : ascii :=
  let n := N_of_ascii c in
  if (N.leb 97 n && N.leb n 122)%bool then ascii_of_N (n - 32) else c.

(** [foldName] on the keys of an object: ASCII letters go to upper case, and
    so do the two other runes whose case orbit has an ASCII letter, U+017F
    (to S) and U+212A (to K). The folding of the remaining runes is left
    out: every field name below is ASCII, and such a rune stays outside
    ASCII. *)
Fixpoint foldName (s : string) : string :=
  match s with
  | EmptyString => EmptyString
  | String c s1 =>
      match s1 with
      | EmptyString => String (upper c) EmptyString
      | String c1 s2 =>
          if (byte 197 c && byte 191 c1)%bool then String "S" (foldName s2)
          else
            match s2 with
            | EmptyString => String (upper c) (foldName s1)
            | String c2 s3 =>
                if (byte 226 c && byte 132 c1 && byte 170 c2)%bool
                then String "K" (foldName s3)
                else String (upper c) (foldName s1)
            end
      end
  end.

(** A struct field: its [json] tag and the decoding of a value into it. *)
Definition field (T : Type) : Type := (string * (json → T → result T))%type.

Definition fld {T V : Type} (tag : string) (get : T → V) (set : V → T → T)
    (dec : decoder V) : field T :=
  (tag, λ j v, x ← dec j (get v); mret (set x v)).

(** The field for a key: the exact name first, then the folded one. *)
Definition fieldFor {T : Type} (fields : list (field T)) (key : string)
    : option (field T) :=
  match find (λ f, String.eqb f.1 key) fields with
  | Some f => Some f
  | None => find (λ f, String.eqb (foldName f.1) (foldName key)) fields
  end.

(** The members of an object, in order; a key without a field is skipped. *)
Fixpoint object {T : Type} (fields : list (field T))
    (members : list (string * json)) (v : T) : result T :=
  match members with
  | [] => Ok v
  | (key, x) :: rest =>
      v' ← match fieldFor fields key with
           | Some f => f.2 x v
           | None => Ok v
           end;
      object fields rest v'
  end.

Definition decodeStruct {T : Type} (fields : list (field T)) : decoder T := λ j v,
  match j with
  | JNull => Ok v
  | JObject members => object fields members v
  | _ => mismatch j
  end.

(** *** Slices

    A slice is its elements and, behind them, the rest of its backing array:
    an array decoded into a slice writes element [i] into slot [i] of the
    backing array, on top of what that slot held, and a fresh slot holds the
    zero value. An empty array and [null] leave a new, empty slice. *)
Record slice (E : Type) : Type := Slice {
  elems : list E;
  spare : list E
}.
Arguments Slice {E} elems spare.
Arguments elems {E} s.
Arguments spare {E} s.

Definition nilSlice {E : Type} : slice E := Slice [] [].

Fixpoint decodeElems {E : Type} (zero : E) (dec : decoder E)
    (xs : list json) (slots : list E) : result (list E * list E) :=
  match xs with
  | [] => Ok ([], slots)
  | x :: xs' =>
      e ← dec x (hd zero slots);
      r ← decodeElems zero dec xs' (tl slots);
      mret (e :: r.1, r.2)
  end.

Definition decodeSlice {E : Type} (zero : E) (dec : decoder E)
    : decoder (slice E) := λ j v,
  match j with
  | JNull => Ok nilSlice
  | JArray [] => Ok nilSlice
  | JArray xs =>
      r ← decodeElems zero dec xs (elems v ++ spare v);
      mret (Slice r.1 r.2)
  | _ => mismatch j
  end.

(** ** The response structs

    The anonymous struct types of [WeatherResponse] and
    [AirPollutionResponse] get a module each, named after the field they are
    the type of ([Condition]: an element of [Weather]; [AirMain] and [Entry]:
    [Main] and an element of [List] in the pollution response). Each module
    has the zero value and the fields with their [json] tags. *)

Module Coord.
Record t : Type := mk { Lon : float64; Lat : float64 }.
Definition zero : t := mk float64_zero float64_zero.
Definition fields : list (field t) :=
  [ fld "lon" Lon (λ x v, mk x (Lat v)) decodeFloat64;
    fld "lat" Lat (λ x v, mk (Lon v) x) decodeFloat64 ].
Definition decode : decoder t := decodeStruct fields.
End Coord.

Module Condition.
Record t : Type := mk {
  ID : Z;
  Main : string;
  Description : string;
  Icon : string
}.
Definition zero : t := mk 0 "" "" "".
Definition fields : list (field t) :=
  [ fld "id" ID (λ x v, mk x (Main v) (Description v) (Icon v)) decodeInt;
    fld "main" Main (λ x v, mk (ID v) x (Description v) (Icon v)) decodeString;
    fld "description" Description (λ x v, mk (ID v) (Main v) x (Icon v))
      decodeString;
    fld "icon" Icon (λ x v, mk (ID v) (Main v) (Description v) x) decodeString ].
Definition decode : decoder t := decodeStruct fields.
End Condition.

Module Main.
Record t : Type := mk {
  Temp : float64;
  FeelsLike : float64;
  TempMin : float64;
  TempMax : float64;
  Pressure : float64;
  Humidity : float64;
  SeaLevel : float64;
  GrndLevel : float64
}.
Definition zero : t :=
  mk float64_zero float64_zero float64_zero float64_zero
     float64_zero float64_zero float64_zero float64_zero.
Definition fields : list (field t) :=
  [ fld "temp" Temp
      (λ x v, mk x (FeelsLike v) (TempMin v) (TempMax v) (Pressure v)
                 (Humidity v) (SeaLevel v) (GrndLevel v)) decodeFloat64;
    fld "feels_like" FeelsLike
      (λ x v, mk (Temp v) x (TempMin v) (TempMax v) (Pressure v)
                 (Humidity v) (SeaLevel v) (GrndLevel v)) decodeFloat64;
    fld "temp_min" TempMin
      (λ x v, mk (Temp v) (FeelsLike v) x (TempMax v) (Pressure v)
                 (Humidity v) (SeaLevel v) (GrndLevel v)) decodeFloat64;
    fld "temp_max" TempMax
      (λ x v, mk (Temp v) (FeelsLike v) (TempMin v) x (Pressure v)
                 (Humidity v) (SeaLevel v) (GrndLevel v)) decodeFloat64;
    fld "pressure" Pressure
      (λ x v, mk (Temp v) (FeelsLike v) (TempMin v) (TempMax v) x
                 (Humidity v) (SeaLevel v) (GrndLevel v)) decodeFloat64;
    fld "humidity" Humidity
      (λ x v, mk (Temp v) (FeelsLike v) (TempMin v) (TempMax v) (Pressure v)
                 x (SeaLevel v) (GrndLevel v)) decodeFloat64;
    fld "sea_level" SeaLevel
      (λ x v, mk (Temp v) (FeelsLike v) (TempMin v) (TempMax v) (Pressure v)
                 (Humidity v) x (GrndLevel v)) decodeFloat64;
    fld "grnd_level" GrndLevel
      (λ x v, mk (Temp v) (FeelsLike v) (TempMin v) (TempMax v) (Pressure v)
                 (Humidity v) (SeaLevel v) x) decodeFloat64 ].
Definition decode : decoder t := decodeStruct fields.
End Main.

Module Wind.
Record t : Type := mk { Speed : float64; Deg : float64 }.
Definition zero : t := mk float64_zero float64_zero.
Definition fields : list (field t) :=
  [ fld "speed" Speed (λ x v, mk x (Deg v)) decodeFloat64;
    fld "deg" Deg (λ x v, mk (Speed v) x) decodeFloat64 ].
Definition decode : decoder t := decodeStruct fields.
End Wind.

Module Clouds.
Record t : Type := mk { All : float64 }.
Definition zero : t := mk float64_zero.
Definition fields : list (field t) :=
  [ fld "all" All (λ x v, mk x) decodeFloat64 ].
Definition decode : decoder t := decodeStruct fields.
End Clouds.

Module Sys.
Record t : Type := mk {
  Type_ : Z;
  ID : Z;
  Country : string;
  Sunrise : Z;
  Sunset : Z
}.
Definition zero : t := mk 0 0 "" 0 0.
Definition fields : list (field t) :=
  [ fld "type" Type_ (λ x v, mk x (ID v) (Country v) (Sunrise v) (Sunset v))
      decodeInt;
    fld "id" ID (λ x v, mk (Type_ v) x (Country v) (Sunrise v) (Sunset v))
      decodeInt;
    fld "country" Country
      (λ x v, mk (Type_ v) (ID v) x (Sunrise v) (Sunset v)) decodeString;
    fld "sunrise" Sunrise
      (λ x v, mk (Type_ v) (ID v) (Country v) x (Sunset v)) decodeInt;
    fld "sunset" Sunset
      (λ x v, mk (Type_ v) (ID v) (Country v) (Sunrise v) x) decodeInt ].
Definition decode : decoder t := decodeStruct fields.
End Sys.

Module WeatherResponse.
Record t : Type := mk {
  Coord : Coord.t;
  Weather : slice Condition.t;
  Base : string;
  Main : Main.t;
  Visibility : float64;
  Wind : Wind.t;
  Clouds : Clouds.t;
  Dt : Z;
  Sys : Sys.t;
  Timezone : Z;
  ID : Z;
  Name : string;
  Cod : Z
}.
Definition zero : t :=
  mk Coord.zero nilSlice "" Main.zero float64_zero Wind.zero Clouds.zero
     0 Sys.zero 0 0 "" 0.
Definition fields : list (field t) :=
  [ fld "coord" Coord
      (λ x v, mk x (Weather v) (Base v) (Main v) (Visibility v) (Wind v)
                 (Clouds v) (Dt v) (Sys v) (Timezone v) (ID v) (Name v) (Cod v))
      Coord.decode;
    fld "weather" Weather
      (λ x v, mk (Coord v) x (Base v) (Main v) (Visibility v) (Wind v)
                 (Clouds v) (Dt v) (Sys v) (Timezone v) (ID v) (Name v) (Cod v))
      (decodeSlice Condition.zero Condition.decode);
    fld "base" Base
      (λ x v, mk (Coord v) (Weather v) x (Main v) (Visibility v) (Wind v)
                 (Clouds v) (Dt v) (Sys v) (Timezone v) (ID v) (Name v) (Cod v))
      decodeString;
    fld "main" Main
      (λ x v, mk (Coord v) (Weather v) (Base v) x (Visibility v) (Wind v)
                 (Clouds v) (Dt v) (Sys v) (Timezone v) (ID v) (Name v) (Cod v))
      Main.decode;
    fld "visibility" Visibility
      (λ x v, mk (Coord v) (Weather v) (Base v) (Main v) x (Wind v)
                 (Clouds v) (Dt v) (Sys v) (Timezone v) (ID v) (Name v) (Cod v))
      decodeFloat64;
    fld "wind" Wind
      (λ x v, mk (Coord v) (Weather v) (Base v) (Main v) (Visibility v) x
                 (Clouds v) (Dt v) (Sys v) (Timezone v) (ID v) (Name v) (Cod v))
      Wind.decode;
    fld "clouds" Clouds
      (λ x v, mk (Coord v) (Weather v) (Base v) (Main v) (Visibility v)
                 (Wind v) x (Dt v) (Sys v) (Timezone v) (ID v) (Name v) (Cod v))
      Clouds.decode;
    fld "dt" Dt
      (λ x v, mk (Coord v) (Weather v) (Base v) (Main v) (Visibility v)
                 (Wind v) (Clouds v) x (Sys v) (Timezone v) (ID v) (Name v)
                 (Cod v))
      decodeInt;
    fld "sys" Sys
      (λ x v, mk (Coord v) (Weather v) (Base v) (Main v) (Visibility v)
                 (Wind v) (Clouds v) (Dt v) x (Timezone v) (ID v) (Name v)
                 (Cod v))
      Sys.decode;
    fld "timezone" Timezone
      (λ x v, mk (Coord v) (Weather v) (Base v) (Main v) (Visibility v)
                 (Wind v) (Clouds v) (Dt v) (Sys v) x (ID v) (Name v) (Cod v))
      decodeInt;
    fld "id" ID
      (λ x v, mk (Coord v) (Weather v) (Base v) (Main v) (Visibility v)
                 (Wind v) (Clouds v) (Dt v) (Sys v) (Timezone v) x (Name v)
                 (Cod v))
      decodeInt;
    fld "name" Name
      (λ x v, mk (Coord v) (Weather v) (Base v) (Main v) (Visibility v)
                 (Wind v) (Clouds v) (Dt v) (Sys v) (Timezone v) (ID v) x
                 (Cod v))
      decodeString;
    fld "cod" Cod
      (λ x v, mk (Coord v) (Weather v) (Base v) (Main v) (Visibility v)
                 (Wind v) (Clouds v) (Dt v) (Sys v) (Timezone v) (ID v)
                 (Name v) x)
      decodeInt ].
Definition decode : decoder t := decodeStruct fields.

(** [v] with [n] as its [ID]. *)
Definition withID (n : Z) (v : t) : t :=
  mk (Coord v) (Weather v) (Base v) (Main v) (Visibility v) (Wind v) (Clouds v)
     (Dt v) (Sys v) (Timezone v) n (Name v) (Cod v).
End WeatherResponse.

Module AirMain.
Record t : Type := mk { AQI : Z }.
Definition zero : t := mk 0.
Definition fields : list (field t) := [ fld "aqi" AQI (λ x v, mk x) decodeInt ].
Definition decode : decoder t := decodeStruct fields.
End AirMain.

Module Components.
Record t : Type := mk {
  CO : float64;
  NO : float64;
  NO2 : float64;
  O3 : float64;
  SO2 : float64;
  PM25 : float64;
  PM10 : float64;
  NH3 : float64
}.
Definition zero : t :=
  mk float64_zero float64_zero float64_zero float64_zero
     float64_zero float64_zero float64_zero float64_zero.
Definition fields : list (field t) :=
  [ fld "co" CO
      (λ x v, mk x (NO v) (NO2 v) (O3 v) (SO2 v) (PM25 v) (PM10 v) (NH3 v))
      decodeFloat64;
    fld "no" NO
      (λ x v, mk (CO v) x (NO2 v) (O3 v) (SO2 v) (PM25 v) (PM10 v) (NH3 v))
      decodeFloat64;
    fld "no2" NO2
      (λ x v, mk (CO v) (NO v) x (O3 v) (SO2 v) (PM25 v) (PM10 v) (NH3 v))
      decodeFloat64;
    fld "o3" O3
      (λ x v, mk (CO v) (NO v) (NO2 v) x (SO2 v) (PM25 v) (PM10 v) (NH3 v))
      decodeFloat64;
    fld "so2" SO2
      (λ x v, mk (CO v) (NO v) (NO2 v) (O3 v) x (PM25 v) (PM10 v) (NH3 v))
      decodeFloat64;
    fld "pm2_5" PM25
      (λ x v, mk (CO v) (NO v) (NO2 v) (O3 v) (SO2 v) x (PM10 v) (NH3 v))
      decodeFloat64;
    fld "pm10" PM10
      (λ x v, mk (CO v) (NO v) (NO2 v) (O3 v) (SO2 v) (PM25 v) x (NH3 v))
      decodeFloat64;
    fld "nh3" NH3
      (λ x v, mk (CO v) (NO v) (NO2 v) (O3 v) (SO2 v) (PM25 v) (PM10 v) x)
      decodeFloat64 ].
Definition decode : decoder t := decodeStruct fields.
End Components.

Module Entry.
Record t : Type := mk {
  Main : AirMain.t;
  Components : Components.t;
  Dt : Z
}.
Definition zero : t := mk AirMain.zero Components.zero 0.
Definition fields : list (field t) :=
  [ fld "main" Main (λ x v, mk x (Components v) (Dt v)) AirMain.decode;
    fld "components" Components (λ x v, mk (Main v) x (Dt v)) Components.decode;
    fld "dt" Dt (λ x v, mk (Main v) (Components v) x) decodeInt ].
Definition decode : decoder t := decodeStruct fields.
End Entry.

Module AirPollutionResponse.
Record t : Type := mk {
  Coord : Coord.t;
  List : slice Entry.t
}.
Definition zero : t := mk Coord.zero nilSlice.
Definition fields : list (field t) :=
  [ fld "coord" Coord (λ x v, mk x (List v)) Coord.decode;
    fld "list" List (λ x v, mk (Coord v) x) (decodeSlice Entry.zero Entry.decode) ].
Definition decode : decoder t := decodeStruct fields.
End AirPollutionResponse.

(** ** Prometheus metrics *)

Record GaugeOpts : Type := mkGaugeOpts { Name : string; Help : string }.

Record GaugeVec : Type := NewGaugeVec {
  opts : GaugeOpts;
  labelNames : list string
}.

(** *** Weather metrics *)
Definition owWeatherTemp : GaugeVec :=
  NewGaugeVec (mkGaugeOpts "ow_weather_temp" "Current temperature") ["station"].
Definition owWeatherFeelsLike : GaugeVec :=
  NewGaugeVec (mkGaugeOpts "ow_weather_feels_like" "Feels like temperature")
    ["station"].
Definition owWeatherTempMin : GaugeVec :=
  NewGaugeVec (mkGaugeOpts "ow_weather_temp_min" "Minimum temperature") ["station"].
Definition owWeatherTempMax : GaugeVec :=
  NewGaugeVec (mkGaugeOpts "ow_weather_temp_max" "Maximum temperature") ["station"].
Definition owWeatherPressure : GaugeVec :=
  NewGaugeVec (mkGaugeOpts "ow_weather_pressure" "Atmospheric pressure in hPa")
    ["station"].
Definition owWeatherHumidity : GaugeVec :=
  NewGaugeVec (mkGaugeOpts "ow_weather_humidity" "Humidity percentage") ["station"].
Definition owWeatherSeaLevel : GaugeVec :=
  NewGaugeVec (mkGaugeOpts "ow_weather_sea_level" "Sea level pressure in hPa")
    ["station"].
Definition owWeatherGrndLevel : GaugeVec :=
  NewGaugeVec (mkGaugeOpts "ow_weather_grnd_level" "Ground level pressure in hPa")
    ["station"].
Definition owWeatherVisibility : GaugeVec :=
  NewGaugeVec (mkGaugeOpts "ow_weather_visibility" "Visibility in meters")
    ["station"].
Definition owWeatherWindSpeed : GaugeVec :=
  NewGaugeVec (mkGaugeOpts "ow_weather_wind_speed" "Wind speed") ["station"].
Definition owWeatherWindDeg : GaugeVec :=
  NewGaugeVec (mkGaugeOpts "ow_weather_wind_deg" "Wind direction in degrees")
    ["station"].
Definition owWeatherClouds : GaugeVec :=
  NewGaugeVec (mkGaugeOpts "ow_weather_clouds" "Cloud coverage percentage")
    ["station"].
Definition owWeatherCondition : GaugeVec :=
  NewGaugeVec (mkGaugeOpts "ow_weather_condition" "Weather condition ID")
    ["station"; "main"; "description"].

(** *** Air pollution metrics *)
Definition owAirPollutionAQI : GaugeVec :=
  NewGaugeVec (mkGaugeOpts "ow_air_pollution_aqi" "Air Quality Index (1-5)")
    ["station"].
Definition owAirPollutionCO : GaugeVec :=
  NewGaugeVec
    (mkGaugeOpts "ow_air_pollution_co" "Carbon monoxide concentration in μg/m³")
    ["station"].
Definition owAirPollutionNO : GaugeVec :=
  NewGaugeVec
    (mkGaugeOpts "ow_air_pollution_no" "Nitrogen monoxide concentration in μg/m³")
    ["station"].
Definition owAirPollutionNO2 : GaugeVec :=
  NewGaugeVec
    (mkGaugeOpts "ow_air_pollution_no2" "Nitrogen dioxide concentration in μg/m³")
    ["station"].
Definition owAirPollutionO3 : GaugeVec :=
  NewGaugeVec (mkGaugeOpts "ow_air_pollution_o3" "Ozone concentration in μg/m³")
    ["station"].
Definition owAirPollutionSO2 : GaugeVec :=
  NewGaugeVec
    (mkGaugeOpts "ow_air_pollution_so2" "Sulphur dioxide concentration in μg/m³")
    ["station"].
Definition owAirPollutionPM25 : GaugeVec :=
  NewGaugeVec (mkGaugeOpts "ow_air_pollution_pm2_5" "PM2.5 concentration in μg/m³")
    ["station"].
Definition owAirPollutionPM10 : GaugeVec :=
  NewGaugeVec (mkGaugeOpts "ow_air_pollution_pm10" "PM10 concentration in μg/m³")
    ["station"].
Definition owAirPollutionNH3 : GaugeVec :=
  NewGaugeVec (mkGaugeOpts "ow_air_pollution_nh3" "Ammonia concentration in μg/m³")
    ["station"].

(** The vectors that [init] registers, in its order. *)
Definition weatherVecs : list GaugeVec :=
  [ owWeatherTemp; owWeatherFeelsLike; owWeatherTempMin; owWeatherTempMax;
    owWeatherPressure; owWeatherHumidity; owWeatherSeaLevel; owWeatherGrndLevel;
    owWeatherVisibility; owWeatherWindSpeed; owWeatherWindDeg; owWeatherClouds;
    owWeatherCondition ].

Definition pollutionVecs : list GaugeVec :=
  [ owAirPollutionAQI; owAirPollutionCO; owAirPollutionNO; owAirPollutionNO2;
    owAirPollutionO3; owAirPollutionSO2; owAirPollutionPM25; owAirPollutionPM10;
    owAirPollutionNH3 ].

Definition registered : list GaugeVec := weatherVecs ++ pollutionVecs.

(** ** The world *)

(** What the decoder finds in a response body: the JSON value it starts
    with, or the error of reading or scanning it. *)
Inductive body : Type :=
| BodyError (err : error)
| BodyJSON (j : json).

Record Response : Type := mkResponse { StatusCode : Z; Body : body }.

Definition StatusOK : Z := 200.

Inductive event : Type :=
| EvGet (url : string)
| EvSet (vec : GaugeVec) (lvs : list string) (v : float64)
| EvLog (format : string) (err : error).

(** The registry holds, for a registered vector's name and a list of label
    values, the value last set. [network n url] is what the [n]-th call of
    [http.Get], for [url], returns; [calls] counts the calls made. *)
Record world : Type := mkWorld {
  registry : gmap (string * list string) float64;
  network : nat → string → Response + error;
  calls : nat;
  trace : list event
}.

Definition M (A : Type) : Type := world → A * world.

#[export] Instance M_ret : MRet M := λ A a w, (a, w).
#[export] Instance M_bind : MBind M := λ A B f m w,
  match m w with
  | (a, w') => f a w'
  end.

(** [http.Get(url)]. *)
Definition Get (url : string) : M (Response + error) := λ w,
  (network w (calls w) url,
   mkWorld (registry w) (network w) (S (calls w)) (trace w ++ [EvGet url])).

(** [vec.WithLabelValues(lvs...).Set(v)]. *)
Definition GaugeVec_Set (vec : GaugeVec) (lvs : list string) (v : float64)
    : M unit := λ w,
  (tt,
   mkWorld (<[(Name (opts vec), lvs) := v]> (registry w)) (network w) (calls w)
           (trace w ++ [EvSet vec lvs v])).

(** [log.Printf(format, err)]. *)
Definition Printf (format : string) (err : error) : M unit := λ w,
  (tt, mkWorld (registry w) (network w) (calls w) (trace w ++ [EvLog format err])).

(** [json.NewDecoder(body).Decode(&v)], for [v] holding [zero]. *)
Definition Decode {T : Type} (dec : decoder T) (zero : T) (b : body) : result T :=
  match b with
  | BodyError err => Err err
  | BodyJSON j => dec j zero
  end.

(** What a scrape of [/metrics] reads. *)
Definition snapshot (w : world) : list (string * list string * float64) :=
  map_to_list (registry w).

(** ** The program *)

Definition fetchWeatherData (url : string) : M (string * option error) :=
  r ← Get url;
  match r with
  | inr err => mret ("", Some (Errorf_w "failed to fetch weather data: %w" err))
  | inl resp =>
      if negb (Z.eqb (StatusCode resp) StatusOK) then
        mret ("", Some (Errorf_d "weather API returned status code: %d"
                                 (StatusCode resp)))
      else
        match Decode WeatherResponse.decode WeatherResponse.zero (Body resp) with
        | Err err =>
            mret ("", Some (Errorf_w "failed to decode weather response: %w" err))
        | Ok weather =>
            let station := Itoa (WeatherResponse.ID weather) in
            (* Update weather metrics *)
            GaugeVec_Set owWeatherTemp [station]
              (Main.Temp (WeatherResponse.Main weather));;
            GaugeVec_Set owWeatherFeelsLike [station]
              (Main.FeelsLike (WeatherResponse.Main weather));;
            GaugeVec_Set owWeatherTempMin [station]
              (Main.TempMin (WeatherResponse.Main weather));;
            GaugeVec_Set owWeatherTempMax [station]
              (Main.TempMax (WeatherResponse.Main weather));;
            GaugeVec_Set owWeatherPressure [station]
              (Main.Pressure (WeatherResponse.Main weather));;
            GaugeVec_Set owWeatherHumidity [station]
              (Main.Humidity (WeatherResponse.Main weather));;
            GaugeVec_Set owWeatherSeaLevel [station]
              (Main.SeaLevel (WeatherResponse.Main weather));;
            GaugeVec_Set owWeatherGrndLevel [station]
              (Main.GrndLevel (WeatherResponse.Main weather));;
            GaugeVec_Set owWeatherVisibility [station]
              (WeatherResponse.Visibility weather);;
            GaugeVec_Set owWeatherWindSpeed [station]
              (Wind.Speed (WeatherResponse.Wind weather));;
            GaugeVec_Set owWeatherWindDeg [station]
              (Wind.Deg (WeatherResponse.Wind weather));;
            GaugeVec_Set owWeatherClouds [station]
              (Clouds.All (WeatherResponse.Clouds weather));;
            (* Update weather condition *)
            match elems (WeatherResponse.Weather weather) with
            | first :: _ =>
                GaugeVec_Set owWeatherCondition
                  [station; Condition.Main first; Condition.Description first]
                  float64_one
            | [] => mret tt
            end;;
            mret (station, None)
        end
  end.

Definition fetchAirPollutionData (url : string) (station : string)
    : M (option error) :=
  r ← Get url;
  match r with
  | inr err => mret (Some (Errorf_w "failed to fetch air pollution data: %w" err))
  | inl resp =>
      if negb (Z.eqb (StatusCode resp) StatusOK) then
        mret (Some (Errorf_d "air pollution API returned status code: %d"
                             (StatusCode resp)))
      else
        match Decode AirPollutionResponse.decode AirPollutionResponse.zero
                     (Body resp) with
        | Err err =>
            mret (Some (Errorf_w "failed to decode air pollution response: %w" err))
        | Ok pollution =>
            (* Update air pollution metrics *)
            match elems (AirPollutionResponse.List pollution) with
            | data :: _ =>
                GaugeVec_Set owAirPollutionAQI [station]
                  (float64_of_int (AirMain.AQI (Entry.Main data)));;
                GaugeVec_Set owAirPollutionCO [station]
                  (Components.CO (Entry.Components data));;
                GaugeVec_Set owAirPollutionNO [station]
                  (Components.NO (Entry.Components data));;
                GaugeVec_Set owAirPollutionNO2 [station]
                  (Components.NO2 (Entry.Components data));;
                GaugeVec_Set owAirPollutionO3 [station]
                  (Components.O3 (Entry.Components data));;
                GaugeVec_Set owAirPollutionSO2 [station]
                  (Components.SO2 (Entry.Components data));;
                GaugeVec_Set owAirPollutionPM25 [station]
                  (Components.PM25 (Entry.Components data));;
                GaugeVec_Set owAirPollutionPM10 [station]
                  (Components.PM10 (Entry.Components data));;
                GaugeVec_Set owAirPollutionNH3 [station]
                  (Components.NH3 (Entry.Components data))
            | [] => mret tt
            end;;
            mret None
        end
  end.

Definition updateMetrics (weatherURL pollutionURL : string) : M unit :=
  r ← fetchWeatherData weatherURL;
  match r.2 with
  | Some err => Printf "Error fetching weather data: %v" err
  | None =>
      err ← fetchAirPollutionData pollutionURL r.1;
      match err with
      | Some err => Printf "Error fetching air pollution data: %v" err
      | None => mret tt
      end
  end.

(** ** Observing a run *)

(** One gauge write: the vector, the label values and the value. *)
Definition observation : Type := (GaugeVec * list string * float64)%type.

Definition key (o : observation) : string * list string :=
  (Name (opts o.1.1), o.1.2).

Definition write (r : gmap (string * list string) float64) (o : observation)
    : gmap (string * list string) float64 :=
  <[key o := o.2]> r.

Definition EvSet' (o : observation) : event := EvSet o.1.1 o.1.2 o.2.

(** The gauge writes and the network calls of a trace, in order. *)
Definition sets (t : list event) : list observation :=
  omap (λ e, match e with
             | EvSet vec lvs v => Some (vec, lvs, v)
             | _ => None
             end) t.

Definition gets (t : list event) : list string :=
  omap (λ e, match e with
             | EvGet url => Some url
             | _ => None
             end) t.

(** The events that running [m] from [w] adds to the trace. *)
Definition emitted {A : Type} (m : M A) (w : world) : list event :=
  drop (length (trace w)) (trace (m w).2).

(** The two fetches, seen as one operation returning its error. *)
Inductive fetch : Type :=
| Weather (url : string)
| Pollution (url station : string).

Definition fetchURL (f : fetch) : string :=
  match f with
  | Weather url => url
  | Pollution url _ => url
  end.

Definition runFetch (f : fetch) : M (option error) :=
  match f with
  | Weather url => r ← fetchWeatherData url; mret r.2
  | Pollution url station => fetchAirPollutionData url station
  end.

(** The error of decoding a body for a fetch, if any. *)
Definition decodeError (f : fetch) (b : body) : option error :=
  match f with
  | Weather _ =>
      match Decode WeatherResponse.decode WeatherResponse.zero b with
      | Ok _ => None
      | Err e => Some e
      end
  | Pollution _ _ =>
      match Decode AirPollutionResponse.decode AirPollutionResponse.zero b with
      | Ok _ => None
      | Err e => Some e
      end
  end.

(** The ways a fetch fails: [http.Get] returns an error, the status is not
    [StatusOK], or the body does not decode. *)
Inductive fetchFailure (f : fetch) : Response + error → Prop :=
| TransportFailure (err : error) : fetchFailure f (inr err)
| StatusFailure (resp : Response) :
    StatusCode resp ≠ StatusOK → fetchFailure f (inl resp)
| DecodeFailure (resp : Response) (err : error) :
    StatusCode resp = StatusOK →
    decodeError f (Body resp) = Some err →
    fetchFailure f (inl resp).

(** The writes of [fetchWeatherData] for a decoded response, in order. *)
Definition weatherWrites (weather : WeatherResponse.t) : list observation :=
  let station := Itoa (WeatherResponse.ID weather) in
  [ (owWeatherTemp, [station], Main.Temp (WeatherResponse.Main weather));
    (owWeatherFeelsLike, [station], Main.FeelsLike (WeatherResponse.Main weather));
    (owWeatherTempMin, [station], Main.TempMin (WeatherResponse.Main weather));
    (owWeatherTempMax, [station], Main.TempMax (WeatherResponse.Main weather));
    (owWeatherPressure, [station], Main.Pressure (WeatherResponse.Main weather));
    (owWeatherHumidity, [station], Main.Humidity (WeatherResponse.Main weather));
    (owWeatherSeaLevel, [station], Main.SeaLevel (WeatherResponse.Main weather));
    (owWeatherGrndLevel, [station], Main.GrndLevel (WeatherResponse.Main weather));
    (owWeatherVisibility, [station], WeatherResponse.Visibility weather);
    (owWeatherWindSpeed, [station], Wind.Speed (WeatherResponse.Wind weather));
    (owWeatherWindDeg, [station], Wind.Deg (WeatherResponse.Wind weather));
    (owWeatherClouds, [station], Clouds.All (WeatherResponse.Clouds weather)) ]
  ++ match elems (WeatherResponse.Weather weather) with
     | first :: _ =>
         [ (owWeatherCondition,
            [station; Condition.Main first; Condition.Description first],
            float64_one) ]
     | [] => []
     end.

(** The writes of [fetchAirPollutionData] for a decoded response, in order. *)
Definition pollutionWrites (station : string) (pollution : AirPollutionResponse.t)
    : list observation :=
  match elems (AirPollutionResponse.List pollution) with
  | data :: _ =>
      [ (owAirPollutionAQI, [station],
         float64_of_int (AirMain.AQI (Entry.Main data)));
        (owAirPollutionCO, [station], Components.CO (Entry.Components data));
        (owAirPollutionNO, [station], Components.NO (Entry.Components data));
        (owAirPollutionNO2, [station], Components.NO2 (Entry.Components data));
        (owAirPollutionO3, [station], Components.O3 (Entry.Components data));
        (owAirPollutionSO2, [station], Components.SO2 (Entry.Components data));
        (owAirPollutionPM25, [station], Components.PM25 (Entry.Components data));
        (owAirPollutionPM10, [station], Components.PM10 (Entry.Components data));
        (owAirPollutionNH3, [station], Components.NH3 (Entry.Components data)) ]
  | [] => []
  end.

(** The world after one call of [http.Get] and the writes [obs]. *)
Definition after (w : world) (url : string) (obs : list observation) : world :=
  mkWorld (foldl write (registry w) obs) (network w) (S (calls w))
          (trace w ++ EvGet url :: map EvSet' obs).

(** The writes of a fetch on a body that decodes. *)
Definition fetchWrites (f : fetch) (b : body) : list observation :=
  match f with
  | Weather _ =>
      match Decode WeatherResponse.decode WeatherResponse.zero b with
      | Ok weather => weatherWrites weather
      | Err _ => []
      end
  | Pollution _ station =>
      match Decode AirPollutionResponse.decode AirPollutionResponse.zero b with
      | Ok pollution => pollutionWrites station pollution
      | Err _ => []
      end
  end.

(** The formats of the status error and of the decode error of a fetch. *)
Definition statusFormat (f : fetch) : string :=
  match f with
  | Weather _ => "weather API returned status code: %d"
  | Pollution _ _ => "air pollution API returned status code: %d"
  end.

Definition decodeFormat (f : fetch) : string :=
  match f with
  | Weather _ => "failed to decode weather response: %w"
  | Pollution _ _ => "failed to decode air pollution response: %w"
  end.

Definition transportFormat (f : fetch) : string :=
  match f with
  | Weather _ => "failed to fetch weather data: %w"
  | Pollution _ _ => "failed to fetch air pollution data: %w"
  end.

(** ** Sample responses *)

(** The literal [l] of the number [m * 2 ^ e], for a literal with a fraction. *)
Definition dyadic (l : string) (m e : Z) : json :=
  JNumber (Number l None (Some (binary_normalize 53 1024 m e false))).

Definition sampleWeather : json :=
  JObject
    [ ("weather",
       JArray [ JObject [ ("id", intLit 804); ("main", JString "Clouds");
                          ("description", JString "overcast clouds") ] ]);
      ("main", JObject [ ("temp", dyadic "15.5" 31 (-1)); ("humidity", intLit 70) ]);
      ("id", intLit 42);
      ("cod", intLit 200) ].

Definition samplePollution : json :=
  JObject
    [ ("list",
       JArray [ JObject [ ("main", JObject [ ("aqi", intLit 3) ]);
                          ("components",
                           JObject [ ("co", dyadic "201.5" 403 (-1));
                                     ("pm2_5", dyadic "8.75" 35 (-2)) ]) ] ]) ].

(** A weather response without [id], and with an empty condition list. *)
Definition anonymousWeather : json :=
  JObject [ ("weather", JArray []);
            ("main", JObject [ ("temp", dyadic "15.5" 31 (-1)) ]) ].

Definition unauthorized : Response :=
  mkResponse 401
    (BodyJSON (JObject [ ("cod", intLit 401); ("message", JString "Invalid API key") ])).

(** A world with an empty registry where the calls of [http.Get] return
    [answers] in turn, and a connection error after them. *)
Definition startWorld (answers : list (Response + error)) : world :=
  mkWorld ∅
    (λ n _, nth n answers (inr (libError "dial tcp: connection refused")))
    0 [].

(** The world after one good cycle, with [answers] for the next calls. *)
Definition secondCycle (answers : list (Response + error)) : world :=
  (updateMetrics "weather" "pollution"
     (startWorld (inl (mkResponse 200 (BodyJSON sampleWeather))
                  :: inl (mkResponse 200 (BodyJSON samplePollution))
                  :: answers))).2.


(** ** The configuration and the refresh loop of [main] *)

(** What [main] computes before its first fetch. *)
Record config : Type := mkConfig {
  currentWeatherURL : string;
  pollutionURL : string;
  exporterPort : string
}.

(** [main] from the reading of the environment to the two URLs. [Getenv] is
    [os.Getenv] once [godotenv.Load] has run; an unset variable reads as the
    empty string. The left result is the message of [log.Fatal]. *)
Definition configure (Getenv : string → string) : string + config :=
  let latitude := Getenv "LATITUDE" in
  let longitude := Getenv "LONGITUDE" in
  let units := Getenv "UNITS" in
  let units := if String.eqb units "" then "standard" else units in
  if (negb (String.eqb units "standard") && negb (String.eqb units "imperial")
      && negb (String.eqb units "metric"))%bool
  then inl "UNITS must be either standard, imperial, or metric"
  else
    let apiKey := Getenv "OPENWEATHER_API_KEY" in
    let exporterPort := Getenv "EXPORTER_PORT" in
    if (String.eqb latitude "" || String.eqb longitude "" || String.eqb apiKey "")%bool
    then inl "LATITUDE, LONGITUDE, and OPENWEATHER_API_KEY environment variables must be set"
    else
      let exporterPort := if String.eqb exporterPort "" then "8080" else exporterPort in
      inr (mkConfig
             ("https://api.openweathermap.org/data/2.5/weather?lat=" +:+ latitude
              +:+ "&lon=" +:+ longitude +:+ "&appid=" +:+ apiKey
              +:+ "&units=" +:+ units)
             ("https://api.openweathermap.org/data/2.5/air_pollution?lat="
              +:+ latitude +:+ "&lon=" +:+ longitude +:+ "&appid=" +:+ apiKey)
             exporterPort).

(** The body of the ticker loop, for [n] ticks. *)
Fixpoint refreshes (n : nat) (c : config) : M unit :=
  match n with
  | O => mret tt
  | S n' =>
      updateMetrics (currentWeatherURL c) (pollutionURL c);;
      refreshes n' c
  end.

(** [main], up to [ticks] ticks of its ticker: the warning when
    [godotenv.Load] returns the error [dotenv], the configuration, the
    initial fetch and the refreshes. The result is the message of
    [log.Fatal], or the configuration the program runs with. The HTTP
    server, which only reads the registry, and its log line are left out. *)
Definition main (dotenv : option error) (Getenv : string → string) (ticks : nat)
    : M (string + config) :=
  match dotenv with
  | Some err =>
      Printf "Warning: .env file not found, using system environment variables: %v"
             err
  | None => mret tt
  end;;
  match configure Getenv with
  | inl msg => mret (inl msg)
  | inr c =>
      (* Initial fetch *)
      updateMetrics (currentWeatherURL c) (pollutionURL c);;
      (* Update metrics every 5 minutes *)
      refreshes ticks c;;
      mret (inr c)
  end.

(** The environment [Getenv] with [k] set to [v]. *)
Definition setenv (k v : string) (Getenv : string → string) : string → string :=
  λ k', if String.eqb k' k then v else Getenv k'.

(** The log lines of a trace, in order. *)
Definition logs (t : list event) : list (string * error) :=
  omap (λ e, match e with
             | EvLog format err => Some (format, err)
             | _ => None
             end) t.

(** The three courses of a refresh cycle, as the events it adds: the weather
    fetch fails; it succeeds and the pollution fetch fails; both succeed. *)
Inductive cycleTrace (weatherURL pollutionURL : string) : list event → Prop :=
| WeatherFailed (err : error) :
    cycleTrace weatherURL pollutionURL
      [EvGet weatherURL; EvLog "Error fetching weather data: %v" err]
| PollutionFailed (weather : WeatherResponse.t) (err : error) :
    cycleTrace weatherURL pollutionURL
      (EvGet weatherURL :: map EvSet' (weatherWrites weather)
       ++ [EvGet pollutionURL; EvLog "Error fetching air pollution data: %v" err])
| BothFetched (weather : WeatherResponse.t) (pollution : AirPollutionResponse.t) :
    cycleTrace weatherURL pollutionURL
      (EvGet weatherURL :: map EvSet' (weatherWrites weather)
       ++ EvGet pollutionURL
          :: map EvSet' (pollutionWrites (Itoa (WeatherResponse.ID weather))
                                         pollution)).

(** A key of the registry that belongs to a registered vector, with as many
    label values as the vector has label names. *)
Definition registeredKey (k : string * list string) : Prop :=
  ∃ vec : GaugeVec,
    vec ∈ registered ∧ k.1 = Name (opts vec) ∧ length k.2 = length (labelNames vec).

(** The writes of a cycle: their vector is registered and gets as many label
    values as it has label names, the first of them is the station, and a
    write to the condition vector has value 1. *)
Definition cycleWrite (station : string) (o : observation) : Prop :=
  o.1.1 ∈ registered
  ∧ length o.1.2 = length (labelNames o.1.1)
  ∧ head o.1.2 = Some station
  ∧ (Name (opts o.1.1) = "ow_weather_condition" → o.2 = float64_one).

(** A fetch that got a response with status 200 and a body that decodes. *)
Definition fetched (f : fetch) (r : Response + error) : Prop :=
  ∃ resp : Response,
    r = inl resp ∧ StatusCode resp = StatusOK ∧ decodeError f (Body resp) = None.

(** A later weather response of the sample station: rain. *)
Definition rainyWeather : json :=
  JObject
    [ ("weather",
       JArray [ JObject [ ("id", intLit 500); ("main", JString "Rain");
                          ("description", JString "light rain") ] ]);
      ("main", JObject [ ("temp", dyadic "12.25" 49 (-2)) ]);
      ("id", intLit 42) ].

Definition sampleConfig : config := mkConfig "weather" "pollution" "8080".

(** A sample environment. *)
Definition sampleEnv : string → string :=
  setenv "LATITUDE" "32.27"
    (setenv "LONGITUDE" "-112.73"
       (setenv "OPENWEATHER_API_KEY" "k3y" (λ _, ""))).

(** Each field of a struct below writes its own part of the destination. *)
Ltac other_fields :=
  let f := fresh "f" in
  let x := fresh "x" in
  let v := fresh "v" in
  let v' := fresh "v'" in
  let Hin := fresh "Hin" in
  let Hne := fresh "Hne" in
  let Hf := fresh "Hf" in
  intros f x v v' Hin Hne Hf; cbn [In] in Hin;
  repeat (destruct Hin as [<-|Hin];
    [ first
        [ now elim Hne
        | unfold fld in Hf; cbn [fst snd] in Hf;
          unfold mbind, result_bind, mret, result_ret in Hf;
          match type of Hf with
          | match ?r with Ok _ => _ | Err _ => _ end = _ =>
              destruct r; [injection Hf as <-; reflexivity|discriminate Hf]
          end ]
    | ]);
  contradiction.
(** ** Running the primitives *)

Lemma Get_then {A : Type} (url : string) (k : Response + error → M A) (w : world) :
  (Get url ≫= k) w = k (network w (calls w) url) (after w url []).
Proof. reflexivity. Qed.

Lemma GaugeVec_Set_after (vec : GaugeVec) (lvs : list string) (v : float64)
    (w : world) (url : string) (obs : list observation) :
  GaugeVec_Set vec lvs v (after w url obs) =
    (tt, after w url (obs ++ [(vec, lvs, v)])).
Proof.
  unfold GaugeVec_Set, after. cbn [registry network calls trace].
  rewrite foldl_app, map_app, <- app_assoc. reflexivity.
Qed.

Lemma GaugeVec_Set_then {A : Type} (vec : GaugeVec) (lvs : list string)
    (v : float64) (k : M A) (w : world) (url : string) (obs : list observation) :
  (GaugeVec_Set vec lvs v;; k) (after w url obs) =
    k (after w url (obs ++ [(vec, lvs, v)])).
Proof.
  unfold mbind, M_bind. rewrite GaugeVec_Set_after. reflexivity.
Qed.

(** ** The four outcomes of each fetch *)

Section Outcomes.
Variables (url : string) (w : world).

Lemma fetchWeatherData_transport (err : error) :
  network w (calls w) url = inr err →
  fetchWeatherData url w =
    (("", Some (Errorf_w "failed to fetch weather data: %w" err)),
     after w url []).
Proof.
  intros H. unfold fetchWeatherData. rewrite Get_then, H. reflexivity.
Qed.

Lemma fetchWeatherData_status (resp : Response) :
  network w (calls w) url = inl resp →
  StatusCode resp ≠ StatusOK →
  fetchWeatherData url w =
    (("", Some (Errorf_d "weather API returned status code: %d" (StatusCode resp))),
     after w url []).
Proof.
  intros H Hs. unfold fetchWeatherData. rewrite Get_then, H.
  apply Z.eqb_neq in Hs. rewrite Hs. reflexivity.
Qed.

Lemma fetchWeatherData_decode (resp : Response) (err : error) :
  network w (calls w) url = inl resp →
  StatusCode resp = StatusOK →
  Decode WeatherResponse.decode WeatherResponse.zero (Body resp) = Err err →
  fetchWeatherData url w =
    (("", Some (Errorf_w "failed to decode weather response: %w" err)),
     after w url []).
Proof.
  intros H Hs Hd. unfold fetchWeatherData. rewrite Get_then, H.
  apply Z.eqb_eq in Hs. rewrite Hs, Hd. reflexivity.
Qed.

Lemma fetchWeatherData_ok (resp : Response) (weather : WeatherResponse.t) :
  network w (calls w) url = inl resp →
  StatusCode resp = StatusOK →
  Decode WeatherResponse.decode WeatherResponse.zero (Body resp) = Ok weather →
  fetchWeatherData url w =
    ((Itoa (WeatherResponse.ID weather), None),
     after w url (weatherWrites weather)).
Proof.
  intros H Hs Hd. unfold fetchWeatherData. rewrite Get_then, H.
  apply Z.eqb_eq in Hs. rewrite Hs, Hd. cbn [negb].
  rewrite !GaugeVec_Set_then. unfold weatherWrites.
  destruct (elems (WeatherResponse.Weather weather)).
  - reflexivity.
  - rewrite GaugeVec_Set_then. reflexivity.
Qed.
End Outcomes.
Section PollutionOutcomes.
Variables (url station : string) (w : world).

Lemma fetchAirPollutionData_transport (err : error) :
  network w (calls w) url = inr err →
  fetchAirPollutionData url station w =
    (Some (Errorf_w "failed to fetch air pollution data: %w" err), after w url []).
Proof.
  intros H. unfold fetchAirPollutionData. rewrite Get_then, H. reflexivity.
Qed.

Lemma fetchAirPollutionData_status (resp : Response) :
  network w (calls w) url = inl resp →
  StatusCode resp ≠ StatusOK →
  fetchAirPollutionData url station w =
    (Some (Errorf_d "air pollution API returned status code: %d" (StatusCode resp)),
     after w url []).
Proof.
  intros H Hs. unfold fetchAirPollutionData. rewrite Get_then, H.
  apply Z.eqb_neq in Hs. rewrite Hs. reflexivity.
Qed.

Lemma fetchAirPollutionData_decode (resp : Response) (err : error) :
  network w (calls w) url = inl resp →
  StatusCode resp = StatusOK →
  Decode AirPollutionResponse.decode AirPollutionResponse.zero (Body resp)
    = Err err →
  fetchAirPollutionData url station w =
    (Some (Errorf_w "failed to decode air pollution response: %w" err),
     after w url []).
Proof.
  intros H Hs Hd. unfold fetchAirPollutionData. rewrite Get_then, H.
  apply Z.eqb_eq in Hs. rewrite Hs, Hd. reflexivity.
Qed.

Lemma fetchAirPollutionData_ok (resp : Response)
    (pollution : AirPollutionResponse.t) :
  network w (calls w) url = inl resp →
  StatusCode resp = StatusOK →
  Decode AirPollutionResponse.decode AirPollutionResponse.zero (Body resp)
    = Ok pollution →
  fetchAirPollutionData url station w =
    (None, after w url (pollutionWrites station pollution)).
Proof.
  intros H Hs Hd. unfold fetchAirPollutionData. rewrite Get_then, H.
  apply Z.eqb_eq in Hs. rewrite Hs, Hd. cbn [negb]. unfold pollutionWrites.
  destruct (elems (AirPollutionResponse.List pollution)).
  - reflexivity.
  - unfold mbind at 1, M_bind at 1.
    rewrite !GaugeVec_Set_then, GaugeVec_Set_after. reflexivity.
Qed.
End PollutionOutcomes.

(** ** Traces and registries *)

Lemma sets_EvSet' (obs : list observation) : sets (map EvSet' obs) = obs.
Proof.
  induction obs as [|[[vec lvs] v] obs IH]; [reflexivity|].
  unfold sets in *. cbn. now rewrite IH.
Qed.

Lemma sets_Get (url : string) (obs : list observation) :
  sets (EvGet url :: map EvSet' obs) = obs.
Proof. exact (sets_EvSet' obs). Qed.

Lemma emitted_after {A : Type} (m : M A) (w : world) (a : A) (url : string)
    (obs : list observation) :
  m w = (a, after w url obs) → emitted m w = EvGet url :: map EvSet' obs.
Proof.
  intros H. unfold emitted. rewrite H. cbn. apply drop_app_length.
Qed.

Lemma foldl_write_app (r : gmap (string * list string) float64)
    (obs : list observation) (o : observation) :
  foldl write r (obs ++ [o]) = write (foldl write r obs) o.
Proof. now rewrite foldl_app. Qed.

(** A key that is not written keeps its entry. *)
Lemma foldl_write_other (r : gmap (string * list string) float64)
    (obs : list observation) (k : string * list string) :
  k ∉ map key obs → foldl write r obs !! k = r !! k.
Proof.
  induction obs as [|o obs IH] using rev_ind; [reflexivity|].
  intros Hk. rewrite foldl_write_app. unfold write.
  rewrite map_app in Hk. rewrite lookup_insert_ne.
  - apply IH. intros Hin. apply Hk. apply elem_of_app. now left.
  - intros E. subst k. apply Hk. apply elem_of_app. right. cbn.
    apply list_elem_of_here.
Qed.

(** The last write to a key is the entry. *)
Lemma foldl_write_last (r : gmap (string * list string) float64)
    (obs rest : list observation) (o : observation) :
  key o ∉ map key rest →
  foldl write r (obs ++ o :: rest) !! key o = Some o.2.
Proof.
  intros Hk. rewrite foldl_app. cbn. rewrite foldl_write_other by assumption.
  unfold write. apply lookup_insert_eq.
Qed.

(** With all keys different, every write is the entry of its key. *)
Lemma foldl_write_in (r : gmap (string * list string) float64)
    (obs : list observation) (o : observation) :
  NoDup (map key obs) → o ∈ obs → foldl write r obs !! key o = Some o.2.
Proof.
  intros Hnd Hin. apply list_elem_of_split in Hin as (l1 & l2 & ->).
  apply foldl_write_last.
  rewrite map_app in Hnd. apply NoDup_app in Hnd as (_ & _ & Hnd).
  cbn in Hnd. now apply NoDup_cons in Hnd as [? _].
Qed.

Lemma NoDup_keys (obs : list observation) :
  NoDup (map (λ o : observation, Name (opts o.1.1)) obs) → NoDup (map key obs).
Proof.
  intros H. apply (NoDup_fmap_1 fst).
  change (fmap fst (map key obs)) with (map fst (map key obs)).
  rewrite map_map. exact H.
Qed.

Lemma weatherWrites_NoDup (weather : WeatherResponse.t) :
  NoDup (map key (weatherWrites weather)).
Proof.
  apply NoDup_keys. unfold weatherWrites.
  destruct (elems (WeatherResponse.Weather weather)); cbn;
    apply (bool_decide_unpack _); vm_compute; reflexivity.
Qed.

Lemma pollutionWrites_NoDup (station : string) (pollution : AirPollutionResponse.t) :
  NoDup (map key (pollutionWrites station pollution)).
Proof.
  apply NoDup_keys. unfold pollutionWrites.
  destruct (elems (AirPollutionResponse.List pollution)); cbn;
    apply (bool_decide_unpack _); vm_compute; reflexivity.
Qed.

(** The names of the registered vectors are all different, so a name and a
    list of label values stand for one gauge. *)
Lemma registered_NoDup : NoDup (map (λ vec, Name (opts vec)) registered).
Proof. apply (bool_decide_unpack _). vm_compute. reflexivity. Qed.

(** ** Both fetches at once *)

Lemma runFetch_Weather (url : string) (w : world) :
  runFetch (Weather url) w =
    ((fetchWeatherData url w).1.2, (fetchWeatherData url w).2).
Proof.
  unfold runFetch, mbind, M_bind. now destruct (fetchWeatherData url w) as [[s e] w'].
Qed.

Lemma runFetch_transport (f : fetch) (w : world) (err : error) :
  network w (calls w) (fetchURL f) = inr err →
  runFetch f w = (Some (Errorf_w (transportFormat f) err), after w (fetchURL f) []).
Proof.
  intros H. destruct f as [url|url station].
  - rewrite runFetch_Weather, (fetchWeatherData_transport url w err H). reflexivity.
  - apply fetchAirPollutionData_transport, H.
Qed.

Lemma runFetch_status (f : fetch) (w : world) (resp : Response) :
  network w (calls w) (fetchURL f) = inl resp →
  StatusCode resp ≠ StatusOK →
  runFetch f w =
    (Some (Errorf_d (statusFormat f) (StatusCode resp)), after w (fetchURL f) []).
Proof.
  intros H Hs. destruct f as [url|url station].
  - rewrite runFetch_Weather, (fetchWeatherData_status url w resp H Hs). reflexivity.
  - now apply fetchAirPollutionData_status.
Qed.

Lemma runFetch_decode (f : fetch) (w : world) (resp : Response) (err : error) :
  network w (calls w) (fetchURL f) = inl resp →
  StatusCode resp = StatusOK →
  decodeError f (Body resp) = Some err →
  runFetch f w = (Some (Errorf_w (decodeFormat f) err), after w (fetchURL f) []).
Proof.
  intros H Hs Hd. destruct f as [url|url station]; unfold decodeError in Hd.
  - destruct (Decode WeatherResponse.decode _ _) eqn:E; [discriminate|].
    injection Hd as ->.
    rewrite runFetch_Weather, (fetchWeatherData_decode url w resp err H Hs E).
    reflexivity.
  - destruct (Decode AirPollutionResponse.decode _ _) eqn:E; [discriminate|].
    injection Hd as ->. now apply fetchAirPollutionData_decode with resp.
Qed.

Lemma runFetch_ok (f : fetch) (w : world) (resp : Response) :
  network w (calls w) (fetchURL f) = inl resp →
  StatusCode resp = StatusOK →
  decodeError f (Body resp) = None →
  runFetch f w = (None, after w (fetchURL f) (fetchWrites f (Body resp))).
Proof.
  intros H Hs Hd. destruct f as [url|url station]; unfold decodeError in Hd.
  - destruct (Decode WeatherResponse.decode _ _) as [weather|] eqn:E; [|discriminate].
    rewrite runFetch_Weather, (fetchWeatherData_ok url w resp weather H Hs E).
    unfold fetchWrites. rewrite E. reflexivity.
  - destruct (Decode AirPollutionResponse.decode _ _) as [pollution|] eqn:E;
      [|discriminate].
    unfold fetchWrites. rewrite E. now apply fetchAirPollutionData_ok with resp.
Qed.

Lemma runFetch_failure (f : fetch) (w : world) :
  fetchFailure f (network w (calls w) (fetchURL f)) →
  ∃ err, runFetch f w = (Some err, after w (fetchURL f) []).
Proof.
  intros H. inversion H as [err E | resp Hs E | resp err Hs Hd E]; symmetry in E.
  - eexists. apply runFetch_transport. exact E.
  - eexists. apply runFetch_status; eassumption.
  - eexists. apply runFetch_decode with resp; eassumption.
Qed.

(** A fetch fails, or its response has status 200 and decodes. *)
Lemma fetch_cases (f : fetch) (r : Response + error) :
  fetchFailure f r ∨
  ∃ resp, r = inl resp ∧ StatusCode resp = StatusOK ∧ decodeError f (Body resp) = None.
Proof.
  destruct r as [resp|err]; [|left; constructor].
  destruct (decide (StatusCode resp = StatusOK)) as [Hs|Hs];
    [|left; now constructor].
  destruct (decodeError f (Body resp)) as [err|] eqn:Hd.
  - left. now apply DecodeFailure with err.
  - right. now exists resp.
Qed.

Lemma runFetch_error (f : fetch) (w : world) (err : error) :
  (runFetch f w).1 = Some err → fetchFailure f (network w (calls w) (fetchURL f)).
Proof.
  intros H.
  destruct (fetch_cases f (network w (calls w) (fetchURL f)))
    as [Hf|(resp & E & Hs & Hd)]; [exact Hf|].
  rewrite (runFetch_ok f w resp E Hs Hd) in H. discriminate.
Qed.


(** ** The refresh cycle *)

Lemma updateMetrics_weather_error (weatherURL pollutionURL : string) (w : world)
    (err : error) :
  runFetch (Weather weatherURL) w = (Some err, after w weatherURL []) →
  updateMetrics weatherURL pollutionURL w =
    Printf "Error fetching weather data: %v" err (after w weatherURL []).
Proof.
  rewrite runFetch_Weather. intros [= He Hw].
  unfold updateMetrics, mbind, M_bind.
  destruct (fetchWeatherData weatherURL w) as [[s e] w']. cbn in *. now subst.
Qed.

Lemma updateMetrics_weather_ok (weatherURL pollutionURL : string) (w : world)
    (obs : list observation) :
  runFetch (Weather weatherURL) w = (None, after w weatherURL obs) →
  updateMetrics weatherURL pollutionURL w =
    (let w1 := after w weatherURL obs in
     let station := (fetchWeatherData weatherURL w).1.1 in
     match (fetchAirPollutionData pollutionURL station w1).1 with
     | Some err =>
         Printf "Error fetching air pollution data: %v" err
           (fetchAirPollutionData pollutionURL station w1).2
     | None => (tt, (fetchAirPollutionData pollutionURL station w1).2)
     end).
Proof.
  rewrite runFetch_Weather. intros [= He Hw].
  unfold updateMetrics, mbind, M_bind.
  destruct (fetchWeatherData weatherURL w) as [[s e] w']. cbn in *. subst.
  destruct (fetchAirPollutionData pollutionURL s _) as [[err|] w2]; reflexivity.
Qed.

(** C1. When the weather fetch of a cycle fails (the transport fails, the
    status is not 200, or the body does not decode), [updateMetrics] leaves
    the registry, and so the snapshot, as it was, and the cycle makes one
    call of [http.Get], the weather one: all it does is that call and the
    log line for the error; the pollution fetch is not started. *)
Theorem weather_failure_aborts_cycle (weatherURL pollutionURL : string) (w : world) :
  fetchFailure (Weather weatherURL) (network w (calls w) weatherURL) →
  ∃ err,
    (fetchWeatherData weatherURL w).1.2 = Some err ∧
    registry (updateMetrics weatherURL pollutionURL w).2 = registry w ∧
    snapshot (updateMetrics weatherURL pollutionURL w).2 = snapshot w ∧
    calls (updateMetrics weatherURL pollutionURL w).2 = S (calls w) ∧
    emitted (updateMetrics weatherURL pollutionURL) w =
      [EvGet weatherURL; EvLog "Error fetching weather data: %v" err] ∧
    gets (emitted (updateMetrics weatherURL pollutionURL) w) = [weatherURL].
Proof.
  intros Hf. destruct (runFetch_failure (Weather weatherURL) w Hf) as [err Hr].
  exists err. unfold snapshot, emitted.
  rewrite (updateMetrics_weather_error weatherURL pollutionURL w err Hr).
  rewrite runFetch_Weather in Hr. injection Hr as He Hw.
  split; [exact He|]. cbn [Printf after registry calls trace snd foldl map].
  rewrite <- app_assoc, drop_app_length. repeat split; reflexivity.
Qed.

Lemma weather_failure_aborts_cycle_witness :
  ∃ err,
    (fetchWeatherData "weather" (secondCycle [inl unauthorized])).1.2 = Some err ∧
    registry (updateMetrics "weather" "pollution" (secondCycle [inl unauthorized])).2
      = registry (secondCycle [inl unauthorized]) ∧
    snapshot (updateMetrics "weather" "pollution" (secondCycle [inl unauthorized])).2
      = snapshot (secondCycle [inl unauthorized]) ∧
    calls (updateMetrics "weather" "pollution" (secondCycle [inl unauthorized])).2
      = S (calls (secondCycle [inl unauthorized])) ∧
    emitted (updateMetrics "weather" "pollution") (secondCycle [inl unauthorized]) =
      [EvGet "weather"; EvLog "Error fetching weather data: %v" err] ∧
    gets (emitted (updateMetrics "weather" "pollution")
            (secondCycle [inl unauthorized])) = ["weather"].
Proof.
  apply (weather_failure_aborts_cycle "weather" "pollution"
           (secondCycle [inl unauthorized])).
  apply (StatusFailure (Weather "weather") unauthorized). vm_compute. discriminate.
Defined.

(** C9. A fetch, weather or pollution, that returns an error has written
    nothing: the registry is as before the fetch and the call of [http.Get]
    is the only event; the response is checked and decoded before the first
    write. Such a fetch failed in the transport, on the status or in the
    decoding. *)
Theorem failed_fetch_writes_nothing (f : fetch) (w : world) (err : error) :
  (runFetch f w).1 = Some err →
  registry (runFetch f w).2 = registry w ∧
  emitted (runFetch f) w = [EvGet (fetchURL f)] ∧
  sets (emitted (runFetch f) w) = [] ∧
  fetchFailure f (network w (calls w) (fetchURL f)).
Proof.
  intros H. pose proof (runFetch_error f w err H) as Hf.
  destruct (runFetch_failure f w Hf) as [err' Hr].
  rewrite (emitted_after _ _ _ _ _ Hr). rewrite Hr. cbn. auto.
Qed.

Lemma failed_fetch_writes_nothing_witness :
  registry (runFetch (Pollution "pollution" "42")
              (secondCycle [inl (mkResponse 200 (BodyJSON (JArray [])))])).2
    = registry (secondCycle [inl (mkResponse 200 (BodyJSON (JArray [])))]) ∧
  emitted (runFetch (Pollution "pollution" "42"))
    (secondCycle [inl (mkResponse 200 (BodyJSON (JArray [])))])
    = [EvGet "pollution"] ∧
  sets (emitted (runFetch (Pollution "pollution" "42"))
          (secondCycle [inl (mkResponse 200 (BodyJSON (JArray [])))])) = [] ∧
  fetchFailure (Pollution "pollution" "42")
    (network (secondCycle [inl (mkResponse 200 (BodyJSON (JArray [])))])
       (calls (secondCycle [inl (mkResponse 200 (BodyJSON (JArray [])))]))
       "pollution").
Proof.
  apply (failed_fetch_writes_nothing (Pollution "pollution" "42")
           (secondCycle [inl (mkResponse 200 (BodyJSON (JArray [])))])
           (Errorf_w "failed to decode air pollution response: %w"
              (UnmarshalTypeError "array"))).
  vm_compute. reflexivity.
Defined.

(** ** The writes of a successful fetch *)

(** C3. On a response that decodes to [weather], [fetchWeatherData] sets the
    twelve weather gauges once each, in this order, every one under the
    single label [station]; then, when the condition list has a first entry,
    it sets the condition gauge to 1 under [station], the entry's [main] and
    its [description], and when the list is empty it sets no condition
    gauge. *)
Theorem weather_mapping (url : string) (w : world) (resp : Response)
    (weather : WeatherResponse.t) :
  network w (calls w) url = inl resp →
  StatusCode resp = StatusOK →
  Decode WeatherResponse.decode WeatherResponse.zero (Body resp) = Ok weather →
  let station := Itoa (WeatherResponse.ID weather) in
  sets (emitted (fetchWeatherData url) w) =
    ([ (owWeatherTemp, [station], Main.Temp (WeatherResponse.Main weather));
      (owWeatherFeelsLike, [station], Main.FeelsLike (WeatherResponse.Main weather));
      (owWeatherTempMin, [station], Main.TempMin (WeatherResponse.Main weather));
      (owWeatherTempMax, [station], Main.TempMax (WeatherResponse.Main weather));
      (owWeatherPressure, [station], Main.Pressure (WeatherResponse.Main weather));
      (owWeatherHumidity, [station], Main.Humidity (WeatherResponse.Main weather));
      (owWeatherSeaLevel, [station], Main.SeaLevel (WeatherResponse.Main weather));
      (owWeatherGrndLevel, [station], Main.GrndLevel (WeatherResponse.Main weather));
      (owWeatherVisibility, [station], WeatherResponse.Visibility weather);
      (owWeatherWindSpeed, [station], Wind.Speed (WeatherResponse.Wind weather));
      (owWeatherWindDeg, [station], Wind.Deg (WeatherResponse.Wind weather));
      (owWeatherClouds, [station], Clouds.All (WeatherResponse.Clouds weather)) ]
    ++ match elems (WeatherResponse.Weather weather) with
       | first :: _ =>
           [ (owWeatherCondition,
              [station; Condition.Main first; Condition.Description first],
              float64_of_int 1) ]
       | [] => []
       end)%list
  ∧ Forall (λ vec, labelNames vec = ["station"])
      [ owWeatherTemp; owWeatherFeelsLike; owWeatherTempMin; owWeatherTempMax;
        owWeatherPressure; owWeatherHumidity; owWeatherSeaLevel;
        owWeatherGrndLevel; owWeatherVisibility; owWeatherWindSpeed;
        owWeatherWindDeg; owWeatherClouds ]
  ∧ labelNames owWeatherCondition = ["station"; "main"; "description"].
Proof.
  intros H Hs Hd station. split; [|split; [|reflexivity]].
  - rewrite (emitted_after _ _ _ _ _ (fetchWeatherData_ok url w resp weather H Hs Hd)).
    rewrite sets_Get. reflexivity.
  - repeat constructor.
Qed.

Lemma weather_mapping_witness :
  sets (emitted (fetchWeatherData "weather")
          (startWorld [inl (mkResponse 200 (BodyJSON sampleWeather))])) =
    [ (owWeatherTemp, ["42"], binary_normalize 53 1024 31 (-1) false);
      (owWeatherFeelsLike, ["42"], float64_zero);
      (owWeatherTempMin, ["42"], float64_zero);
      (owWeatherTempMax, ["42"], float64_zero);
      (owWeatherPressure, ["42"], float64_zero);
      (owWeatherHumidity, ["42"], float64_of_int 70);
      (owWeatherSeaLevel, ["42"], float64_zero);
      (owWeatherGrndLevel, ["42"], float64_zero);
      (owWeatherVisibility, ["42"], float64_zero);
      (owWeatherWindSpeed, ["42"], float64_zero);
      (owWeatherWindDeg, ["42"], float64_zero);
      (owWeatherClouds, ["42"], float64_zero);
      (owWeatherCondition, ["42"; "Clouds"; "overcast clouds"], float64_of_int 1) ].
Proof.
  refine (proj1 (weather_mapping "weather"
                   (startWorld [inl (mkResponse 200 (BodyJSON sampleWeather))])
                   (mkResponse 200 (BodyJSON sampleWeather))
                   (match Decode WeatherResponse.decode WeatherResponse.zero
                            (BodyJSON sampleWeather) with
                    | Ok weather => weather
                    | Err _ => WeatherResponse.zero
                    end) _ _ _)); reflexivity.
Defined.

(** C4. On a response that decodes to [pollution], [fetchAirPollutionData]
    sets the nine pollution gauges once each, in this order, every one under
    the single label [station], to the values of the first entry of the
    list; when the list is empty it sets no gauge. *)
Theorem pollution_mapping (url station : string) (w : world) (resp : Response)
    (pollution : AirPollutionResponse.t) :
  network w (calls w) url = inl resp →
  StatusCode resp = StatusOK →
  Decode AirPollutionResponse.decode AirPollutionResponse.zero (Body resp)
    = Ok pollution →
  sets (emitted (fetchAirPollutionData url station) w) =
    match elems (AirPollutionResponse.List pollution) with
    | data :: _ =>
        [ (owAirPollutionAQI, [station],
           float64_of_int (AirMain.AQI (Entry.Main data)));
          (owAirPollutionCO, [station], Components.CO (Entry.Components data));
          (owAirPollutionNO, [station], Components.NO (Entry.Components data));
          (owAirPollutionNO2, [station], Components.NO2 (Entry.Components data));
          (owAirPollutionO3, [station], Components.O3 (Entry.Components data));
          (owAirPollutionSO2, [station], Components.SO2 (Entry.Components data));
          (owAirPollutionPM25, [station], Components.PM25 (Entry.Components data));
          (owAirPollutionPM10, [station], Components.PM10 (Entry.Components data));
          (owAirPollutionNH3, [station], Components.NH3 (Entry.Components data)) ]
    | [] => []
    end
  ∧ Forall (λ vec, labelNames vec = ["station"])
      [ owAirPollutionAQI; owAirPollutionCO; owAirPollutionNO; owAirPollutionNO2;
        owAirPollutionO3; owAirPollutionSO2; owAirPollutionPM25;
        owAirPollutionPM10; owAirPollutionNH3 ].
Proof.
  intros H Hs Hd. split.
  - rewrite (emitted_after _ _ _ _ _
               (fetchAirPollutionData_ok url station w resp pollution H Hs Hd)).
    rewrite sets_Get. reflexivity.
  - repeat constructor.
Qed.

Lemma pollution_mapping_witness :
  sets (emitted (fetchAirPollutionData "pollution" "42")
          (startWorld [inl (mkResponse 200 (BodyJSON samplePollution))])) =
    [ (owAirPollutionAQI, ["42"], float64_of_int 3);
      (owAirPollutionCO, ["42"], binary_normalize 53 1024 403 (-1) false);
      (owAirPollutionNO, ["42"], float64_zero);
      (owAirPollutionNO2, ["42"], float64_zero);
      (owAirPollutionO3, ["42"], float64_zero);
      (owAirPollutionSO2, ["42"], float64_zero);
      (owAirPollutionPM25, ["42"], binary_normalize 53 1024 35 (-2) false);
      (owAirPollutionPM10, ["42"], float64_zero);
      (owAirPollutionNH3, ["42"], float64_zero) ].
Proof.
  refine (proj1 (pollution_mapping "pollution" "42"
                   (startWorld [inl (mkResponse 200 (BodyJSON samplePollution))])
                   (mkResponse 200 (BodyJSON samplePollution))
                   (match Decode AirPollutionResponse.decode AirPollutionResponse.zero
                            (BodyJSON samplePollution) with
                    | Ok pollution => pollution
                    | Err _ => AirPollutionResponse.zero
                    end) _ _ _)); reflexivity.
Defined.

(** C7. The writes of a fetch depend on the decoded payload only (and, for
    the pollution fetch, on the station passed in): two runs on responses
    that decode to the same payload, from any two worlds, make the same
    writes in the same order. *)
Theorem mapping_deterministic :
  (∀ (url1 url2 : string) (w1 w2 : world) (resp1 resp2 : Response)
     (weather : WeatherResponse.t),
     network w1 (calls w1) url1 = inl resp1 →
     StatusCode resp1 = StatusOK →
     Decode WeatherResponse.decode WeatherResponse.zero (Body resp1) = Ok weather →
     network w2 (calls w2) url2 = inl resp2 →
     StatusCode resp2 = StatusOK →
     Decode WeatherResponse.decode WeatherResponse.zero (Body resp2) = Ok weather →
     sets (emitted (fetchWeatherData url1) w1)
       = sets (emitted (fetchWeatherData url2) w2))
  ∧
  (∀ (url1 url2 station : string) (w1 w2 : world) (resp1 resp2 : Response)
     (pollution : AirPollutionResponse.t),
     network w1 (calls w1) url1 = inl resp1 →
     StatusCode resp1 = StatusOK →
     Decode AirPollutionResponse.decode AirPollutionResponse.zero (Body resp1)
       = Ok pollution →
     network w2 (calls w2) url2 = inl resp2 →
     StatusCode resp2 = StatusOK →
     Decode AirPollutionResponse.decode AirPollutionResponse.zero (Body resp2)
       = Ok pollution →
     sets (emitted (fetchAirPollutionData url1 station) w1)
       = sets (emitted (fetchAirPollutionData url2 station) w2)).
Proof.
  split.
  - intros url1 url2 w1 w2 resp1 resp2 weather H1 Hs1 Hd1 H2 Hs2 Hd2.
    rewrite (emitted_after _ _ _ _ _
               (fetchWeatherData_ok url1 w1 resp1 weather H1 Hs1 Hd1)).
    rewrite (emitted_after _ _ _ _ _
               (fetchWeatherData_ok url2 w2 resp2 weather H2 Hs2 Hd2)).
    reflexivity.
  - intros url1 url2 station w1 w2 resp1 resp2 pollution H1 Hs1 Hd1 H2 Hs2 Hd2.
    rewrite (emitted_after _ _ _ _ _
               (fetchAirPollutionData_ok url1 station w1 resp1 pollution H1 Hs1 Hd1)).
    rewrite (emitted_after _ _ _ _ _
               (fetchAirPollutionData_ok url2 station w2 resp2 pollution H2 Hs2 Hd2)).
    reflexivity.
Qed.

(** The same weather payload twice: in an empty world, and as the third call
    of a world that has been through a cycle. *)
Lemma mapping_deterministic_witness :
  sets (emitted (fetchWeatherData "weather")
          (startWorld [inl (mkResponse 200 (BodyJSON sampleWeather))]))
    = sets (emitted (fetchWeatherData "again")
              (secondCycle [inl (mkResponse 200 (BodyJSON sampleWeather))])).
Proof.
  refine (proj1 mapping_deterministic "weather" "again"
            (startWorld [inl (mkResponse 200 (BodyJSON sampleWeather))])
            (secondCycle [inl (mkResponse 200 (BodyJSON sampleWeather))])
            (mkResponse 200 (BodyJSON sampleWeather))
            (mkResponse 200 (BodyJSON sampleWeather))
            (match Decode WeatherResponse.decode WeatherResponse.zero
                     (BodyJSON sampleWeather) with
             | Ok weather => weather
             | Err _ => WeatherResponse.zero
             end) _ _ _ _ _ _); reflexivity.
Defined.

(** ** The registry *)

(** C8. Setting a gauge to [v1] and then to [v2], under the same vector and
    label values, leaves [v2] as its entry: the snapshot has one entry for
    the key, with value [v2], and is the snapshot of setting [v2] alone. *)
Theorem last_write_wins (vec : GaugeVec) (lvs : list string) (v1 v2 : float64)
    (w : world) :
  let w2 := (GaugeVec_Set vec lvs v2 (GaugeVec_Set vec lvs v1 w).2).2 in
  registry w2 !! (Name (opts vec), lvs) = Some v2
  ∧ (∀ v : float64, (Name (opts vec), lvs, v) ∈ snapshot w2 ↔ v = v2)
  ∧ NoDup (map fst (snapshot w2))
  ∧ snapshot w2 = snapshot (GaugeVec_Set vec lvs v2 w).2.
Proof.
  cbn. unfold snapshot. cbn. rewrite insert_insert_eq.
  split; [apply lookup_insert_eq|]. split; [|split; [|reflexivity]].
  - intros v. rewrite elem_of_map_to_list, lookup_insert_eq. split; congruence.
  - apply NoDup_fst_map_to_list.
Qed.

(** ** The status check *)

(** Against C5 as stated: with a response of status 204, which is in the 2xx
    range, both fetches return the status error; the body is not decoded. *)
Lemma not_every_2xx_is_decoded :
  ¬ (∀ (f : fetch) (w : world) (resp : Response),
       network w (calls w) (fetchURL f) = inl resp →
       ((∃ format : string,
           (runFetch f w).1 = Some (Errorf_d format (StatusCode resp)))
        ↔ ¬ (200 ≤ StatusCode resp < 300)%Z)).
Proof.
  intros H.
  specialize (H (Weather "weather")
                (startWorld [inl (mkResponse 204 (BodyJSON sampleWeather))])
                (mkResponse 204 (BodyJSON sampleWeather)) eq_refl).
  apply proj1 in H. apply H.
  - exists "weather API returned status code: %d". reflexivity.
  - cbn. lia.
Qed.

(** C5, amended. For a fetch that got a response: when the status is not 200
    the fetch returns the status error, which holds the status code; when it
    is 200 the fetch goes on to decode the body, and returns the decode error
    or none. So the status error is returned exactly when the status is not
    200. *)
Theorem status_error_iff_not_200 (f : fetch) (w : world) (resp : Response) :
  network w (calls w) (fetchURL f) = inl resp →
  (StatusCode resp ≠ StatusOK →
   (runFetch f w).1 = Some (Errorf_d (statusFormat f) (StatusCode resp)))
  ∧ (StatusCode resp = StatusOK →
     (runFetch f w).1 = Errorf_w (decodeFormat f) <$> decodeError f (Body resp))
  ∧ ((∃ (format : string) (code : Z), (runFetch f w).1 = Some (Errorf_d format code))
     ↔ StatusCode resp ≠ StatusOK).
Proof.
  intros H.
  assert (Hne : StatusCode resp ≠ StatusOK →
                (runFetch f w).1 = Some (Errorf_d (statusFormat f) (StatusCode resp))).
  { intros Hs. now rewrite (runFetch_status f w resp H Hs). }
  assert (Heq : StatusCode resp = StatusOK →
                (runFetch f w).1
                  = Errorf_w (decodeFormat f) <$> decodeError f (Body resp)).
  { intros Hs. destruct (decodeError f (Body resp)) as [err|] eqn:Hd.
    - now rewrite (runFetch_decode f w resp err H Hs Hd).
    - now rewrite (runFetch_ok f w resp H Hs Hd). }
  split; [exact Hne|]. split; [exact Heq|]. split.
  - intros (format & code & Hr) Hs. rewrite (Heq Hs) in Hr.
    destruct (decodeError f (Body resp)); discriminate.
  - intros Hs. eauto.
Qed.

Lemma status_error_iff_not_200_witness :
  (runFetch (Pollution "pollution" "42")
     (startWorld [inl (mkResponse 204 (BodyJSON samplePollution))])).1
    = Some (Errorf_d "air pollution API returned status code: %d" 204).
Proof.
  refine (proj1 (status_error_iff_not_200 (Pollution "pollution" "42")
                   (startWorld [inl (mkResponse 204 (BodyJSON samplePollution))])
                   (mkResponse 204 (BodyJSON samplePollution)) _) _).
  - reflexivity.
  - vm_compute. discriminate.
Defined.

(** ** The effects of a fetch *)

(** Against C6 as stated: the weather fetch of the sample response writes
    the registry. *)
Lemma fetch_writes_registry :
  ¬ (∀ (f : fetch) (w : world), registry (runFetch f w).2 = registry w).
Proof.
  intros H.
  specialize (H (Weather "weather")
                (startWorld [inl (mkResponse 200 (BodyJSON sampleWeather))])).
  apply (f_equal (λ r, r !! ("ow_weather_temp", ["42"]))) in H.
  vm_compute in H. discriminate.
Qed.

(** C6, amended. A fetch makes one call of [http.Get] and leaves the network
    as it is; besides that it only sets gauges, and only when the response
    has status 200 and decodes: then it makes the writes of the decoded
    payload, and when it returns an error it makes none. *)
Theorem fetch_effects (f : fetch) (w : world) :
  ∃ obs : list observation,
    network (runFetch f w).2 = network w
    ∧ calls (runFetch f w).2 = S (calls w)
    ∧ emitted (runFetch f) w = EvGet (fetchURL f) :: map EvSet' obs
    ∧ registry (runFetch f w).2 = foldl write (registry w) obs
    ∧ match (runFetch f w).1 with
      | Some _ => obs = []
      | None =>
          ∃ resp : Response,
            network w (calls w) (fetchURL f) = inl resp
            ∧ StatusCode resp = StatusOK
            ∧ decodeError f (Body resp) = None
            ∧ obs = fetchWrites f (Body resp)
      end.
Proof.
  destruct (fetch_cases f (network w (calls w) (fetchURL f)))
    as [Hf|(resp & E & Hs & Hd)].
  - destruct (runFetch_failure f w Hf) as [err Hr]. exists [].
    rewrite (emitted_after _ _ _ _ _ Hr), Hr. cbn. auto.
  - pose proof (runFetch_ok f w resp E Hs Hd) as Hr.
    exists (fetchWrites f (Body resp)).
    rewrite (emitted_after _ _ _ _ _ Hr), Hr. cbn. eauto 10.
Qed.

(** ** Weather and pollution entries *)

Lemma weatherWrites_vecs (weather : WeatherResponse.t) :
  Forall (λ o : observation, o.1.1 ∈ weatherVecs) (weatherWrites weather).
Proof.
  unfold weatherWrites, weatherVecs.
  destruct (elems (WeatherResponse.Weather weather));
    repeat (apply Forall_cons; split; [apply list_elem_of_In; simpl; tauto|]);
    apply Forall_nil; exact I.
Qed.

Lemma names_apart (v1 v2 : GaugeVec) :
  v1 ∈ weatherVecs → v2 ∈ pollutionVecs → Name (opts v1) ≠ Name (opts v2).
Proof.
  intros H1 H2 E. pose proof registered_NoDup as Hnd.
  unfold registered in Hnd. rewrite map_app in Hnd.
  apply NoDup_app in Hnd as (_ & Hd & _).
  apply (Hd (Name (opts v1))).
  - apply (list_elem_of_fmap_2 (λ vec, Name (opts vec))), H1.
  - rewrite E. apply (list_elem_of_fmap_2 (λ vec, Name (opts vec))), H2.
Qed.

(** The weather writes leave the entries of the pollution vectors alone. *)
Lemma weatherWrites_keep_pollution (r : gmap (string * list string) float64)
    (weather : WeatherResponse.t) (vec : GaugeVec) (lvs : list string) :
  vec ∈ pollutionVecs →
  foldl write r (weatherWrites weather) !! (Name (opts vec), lvs)
    = r !! (Name (opts vec), lvs).
Proof.
  intros Hv. apply foldl_write_other. intros Hin.
  apply list_elem_of_fmap in Hin as (o & Ho & Hin).
  pose proof (weatherWrites_vecs weather) as Hw.
  rewrite Forall_forall in Hw. specialize (Hw o Hin).
  apply (names_apart o.1.1 vec Hw Hv). unfold key in Ho. congruence.
Qed.

Lemma fetchWeatherData_returns (url : string) (w : world) (station : string) :
  (fetchWeatherData url w).1 = (station, None) →
  ∃ (resp : Response) (weather : WeatherResponse.t),
    network w (calls w) url = inl resp
    ∧ StatusCode resp = StatusOK
    ∧ Decode WeatherResponse.decode WeatherResponse.zero (Body resp) = Ok weather
    ∧ station = Itoa (WeatherResponse.ID weather).
Proof.
  intros H.
  destruct (fetch_cases (Weather url) (network w (calls w) url))
    as [Hf|(resp & E & Hs & Hd)].
  - destruct (runFetch_failure (Weather url) w Hf) as [err Hr].
    rewrite runFetch_Weather in Hr. injection Hr as He _.
    rewrite H in He. discriminate.
  - unfold decodeError in Hd.
    destruct (Decode WeatherResponse.decode _ _) as [weather|] eqn:Hw;
      [|discriminate].
    exists resp, weather. repeat split; try assumption.
    rewrite (fetchWeatherData_ok url w resp weather E Hs Hw) in H.
    cbn [fst] in H. congruence.
Qed.

(** C2. In a cycle whose weather fetch succeeds and whose pollution fetch
    fails, the registry at the end of the cycle is the one the weather fetch
    left: every weather write of the cycle is the entry of its key, and the
    entries of the pollution vectors are those from before the cycle. *)
Theorem pollution_failure_keeps_weather (weatherURL pollutionURL : string)
    (w : world) (station : string) (err : error) :
  (fetchWeatherData weatherURL w).1 = (station, None) →
  (fetchAirPollutionData pollutionURL station (fetchWeatherData weatherURL w).2).1
    = Some err →
  registry (updateMetrics weatherURL pollutionURL w).2
    = registry (fetchWeatherData weatherURL w).2
  ∧ (∀ o : observation,
       o ∈ sets (emitted (fetchWeatherData weatherURL) w) →
       registry (updateMetrics weatherURL pollutionURL w).2 !! key o = Some o.2)
  ∧ (∀ (vec : GaugeVec) (lvs : list string),
       vec ∈ pollutionVecs →
       registry (updateMetrics weatherURL pollutionURL w).2
         !! (Name (opts vec), lvs)
       = registry w !! (Name (opts vec), lvs))
  ∧ emitted (updateMetrics weatherURL pollutionURL) w =
      (emitted (fetchWeatherData weatherURL) w
       ++ [EvGet pollutionURL; EvLog "Error fetching air pollution data: %v" err])%list.
Proof.
  intros Hw Hp.
  destruct (fetchWeatherData_returns weatherURL w station Hw)
    as (resp & weather & E & Hs & Hd & ->).
  pose proof (fetchWeatherData_ok weatherURL w resp weather E Hs Hd) as Hok.
  assert (Hr : runFetch (Weather weatherURL) w
               = (None, after w weatherURL (weatherWrites weather))).
  { rewrite runFetch_Weather, Hok. reflexivity. }
  unfold emitted at 2.
  rewrite (updateMetrics_weather_ok weatherURL pollutionURL w _ Hr).
  rewrite (emitted_after _ _ _ _ _ Hok), sets_Get.
  rewrite Hok in Hp |- *. cbn [fst snd] in Hp |- *.
  set (w1 := after w weatherURL (weatherWrites weather)) in *.
  pose proof (runFetch_error (Pollution pollutionURL _) w1 err Hp) as Hf.
  destruct (runFetch_failure _ w1 Hf) as [err' Hr2]. cbn [runFetch fetchURL] in Hr2.
  rewrite Hr2 in Hp |- *. cbn [fst snd] in Hp |- *. injection Hp as ->.
  cbn [Printf registry after snd foldl trace map]. subst w1.
  cbn [registry after trace]. repeat split.
  - intros o Ho. apply foldl_write_in; [apply weatherWrites_NoDup|exact Ho].
  - intros vec lvs Hv. now apply weatherWrites_keep_pollution.
  - rewrite <- !app_assoc. rewrite drop_app_length. reflexivity.
Qed.

Lemma pollution_failure_keeps_weather_witness :
  registry (updateMetrics "weather" "pollution"
              (secondCycle [ inl (mkResponse 200 (BodyJSON anonymousWeather));
                             inl (mkResponse 500 (BodyJSON JNull)) ])).2
    !! ("ow_air_pollution_aqi", ["42"])
  = registry (secondCycle [ inl (mkResponse 200 (BodyJSON anonymousWeather));
                             inl (mkResponse 500 (BodyJSON JNull)) ])
      !! ("ow_air_pollution_aqi", ["42"]).
Proof.
  refine (proj1 (proj2 (proj2
            (pollution_failure_keeps_weather "weather" "pollution"
               (secondCycle [ inl (mkResponse 200 (BodyJSON anonymousWeather));
                             inl (mkResponse 500 (BodyJSON JNull)) ])
               "0"
               (Errorf_d "air pollution API returned status code: %d" 500)
               _ _))) owAirPollutionAQI ["42"] _).
  - vm_compute. reflexivity.
  - vm_compute. reflexivity.
  - apply list_elem_of_here.
Defined.

(** ** Decoding a weather response without [id] *)

Lemma object_app {T : Type} (fields : list (field T))
    (l1 l2 : list (string * json)) (v : T) :
  object fields (l1 ++ l2) v = object fields l1 v ≫= object fields l2.
Proof.
  revert v. induction l1 as [|[k x] l1 IH]; intros v; [reflexivity|].
  cbn [app object]. destruct (fieldFor fields k) as [f|].
  - destruct (f.2 x v) as [v'|e]; [apply IH|reflexivity].
  - apply IH.
Qed.

(** The field found for a key has the key's folded name. *)
Lemma fieldFor_Some {T : Type} (fields : list (field T)) (k : string) (f : field T) :
  fieldFor fields k = Some f → In f fields ∧ foldName f.1 = foldName k.
Proof.
  unfold fieldFor.
  match goal with
  | |- context [match ?o with Some _ => _ | None => _ end] =>
      destruct o as [g|] eqn:E
  end.
  - intros H. injection H as H. subst g. apply find_some in E as [Hin Hk].
    apply String.eqb_eq in Hk. split; [exact Hin|]. now rewrite Hk.
  - intros H. apply find_some in H as [Hin Hk].
    apply String.eqb_eq in Hk. now split.
Qed.

(** Decoding into a field other than [ID] does not look at [ID]. *)
Lemma field_withID (f : field WeatherResponse.t) (x : json) (n : Z)
    (v : WeatherResponse.t) :
  In f WeatherResponse.fields →
  foldName f.1 ≠ foldName "id" →
  f.2 x (WeatherResponse.withID n v) =
    match f.2 x v with
    | Ok v' => Ok (WeatherResponse.withID n v')
    | Err e => Err e
    end.
Proof.
  intros Hin Hne. destruct v.
  unfold WeatherResponse.fields in Hin. cbn [In] in Hin.
  repeat (destruct Hin as [<-|Hin];
    [ first
        [ now elim Hne
        | unfold fld; cbn [fst snd];
          unfold WeatherResponse.withID, mbind, result_bind;
          cbn [WeatherResponse.Coord WeatherResponse.Weather WeatherResponse.Base
               WeatherResponse.Main WeatherResponse.Visibility WeatherResponse.Wind
               WeatherResponse.Clouds WeatherResponse.Dt WeatherResponse.Sys
               WeatherResponse.Timezone WeatherResponse.ID WeatherResponse.Name
               WeatherResponse.Cod];
          match goal with
          | |- context [match ?r with Ok _ => _ | Err _ => _ end] =>
              destruct r; reflexivity
          end ]
    | ]).
  contradiction.
Qed.

Lemma object_withID (members : list (string * json)) (n : Z)
    (v : WeatherResponse.t) :
  (∀ (k : string) (x : json), (k, x) ∈ members → foldName k ≠ foldName "id") →
  object WeatherResponse.fields members (WeatherResponse.withID n v) =
    match object WeatherResponse.fields members v with
    | Ok v' => Ok (WeatherResponse.withID n v')
    | Err e => Err e
    end.
Proof.
  revert v. induction members as [|[k x] members IH]; intros v Hno; [reflexivity|].
  assert (Hrest : ∀ (k' : string) (y : json),
            (k', y) ∈ members → foldName k' ≠ foldName "id").
  { intros k' y Hin. apply (Hno k' y). now apply list_elem_of_further. }
  cbn [object].
  destruct (fieldFor WeatherResponse.fields k) as [f|] eqn:Ef.
  - apply fieldFor_Some in Ef as [Hin Hk].
    rewrite (field_withID f x n v Hin).
    + destruct (f.2 x v) as [v'|e]; [|reflexivity]. cbn. now apply IH.
    + rewrite Hk. apply (Hno k x). apply list_elem_of_here.
  - cbn. now apply IH.
Qed.

(** A key with the folded name of [id] selects the field [ID]. *)
Lemma fieldFor_id (k : string) (x : json) (v : WeatherResponse.t) :
  foldName k = foldName "id" →
  ∃ f : field WeatherResponse.t,
    fieldFor WeatherResponse.fields k = Some f
    ∧ f.2 x v = (n ← decodeInt x (WeatherResponse.ID v);
                 mret (WeatherResponse.withID n v)).
Proof.
  intros Hk.
  destruct (fieldFor WeatherResponse.fields k) as [f|] eqn:Ef.
  - exists f. split; [reflexivity|].
    apply fieldFor_Some in Ef as [Hin Hf]. rewrite Hk in Hf.
    unfold WeatherResponse.fields in Hin. cbn [In] in Hin.
    repeat (destruct Hin as [<-|Hin]; [first [discriminate Hf|reflexivity]|]).
    contradiction.
  - exfalso. unfold fieldFor in Ef.
    match type of Ef with
    | match ?o with Some _ => _ | None => _ end = _ =>
        destruct o eqn:E1; [discriminate|]
    end.
    assert (Hin : In (fld "id" WeatherResponse.ID
                       (λ x v, WeatherResponse.withID x v) decodeInt)
                    WeatherResponse.fields).
    { unfold WeatherResponse.fields. cbn [In]. do 10 right. left. reflexivity. }
    pose proof (find_none _ _ Ef _ Hin) as Hf. cbn [fst fld] in Hf.
    rewrite Hk, String.eqb_refl in Hf. discriminate.
Qed.

(** Without a key for [id], the [ID] of the destination is kept. *)
Lemma object_keeps_ID (members : list (string * json)) (v v' : WeatherResponse.t) :
  (∀ (k : string) (x : json), (k, x) ∈ members → foldName k ≠ foldName "id") →
  object WeatherResponse.fields members v = Ok v' →
  WeatherResponse.ID v' = WeatherResponse.ID v.
Proof.
  intros Hno Hv.
  pose proof (object_withID members (WeatherResponse.ID v) v Hno) as H.
  replace (WeatherResponse.withID (WeatherResponse.ID v) v) with v in H
    by now destruct v.
  rewrite Hv in H. injection H as H. rewrite H. reflexivity.
Qed.

(** ** The station label *)

Lemma sets_app (t1 t2 : list event) : sets (t1 ++ t2) = (sets t1 ++ sets t2)%list.
Proof. apply omap_app. Qed.

Lemma weatherWrites_station (weather : WeatherResponse.t) :
  Forall (λ o : observation,
            head o.1.2 = Some (Itoa (WeatherResponse.ID weather))
            ∧ head (labelNames o.1.1) = Some "station")
         (weatherWrites weather).
Proof.
  unfold weatherWrites.
  destruct (elems (WeatherResponse.Weather weather));
    repeat (apply Forall_cons; split; [split; reflexivity|]); apply Forall_nil; exact I.
Qed.

Lemma pollutionWrites_station (station : string) (pollution : AirPollutionResponse.t) :
  Forall (λ o : observation,
            head o.1.2 = Some station ∧ head (labelNames o.1.1) = Some "station")
         (pollutionWrites station pollution).
Proof.
  unfold pollutionWrites.
  destruct (elems (AirPollutionResponse.List pollution));
    repeat (apply Forall_cons; split; [split; reflexivity|]); apply Forall_nil; exact I.
Qed.

(** Every write passes as many label values as its vector has label names. *)
Lemma writes_arity (station : string) (weather : WeatherResponse.t)
    (pollution : AirPollutionResponse.t) :
  Forall (λ o : observation, length o.1.2 = length (labelNames o.1.1))
         (weatherWrites weather ++ pollutionWrites station pollution).
Proof.
  unfold weatherWrites, pollutionWrites.
  destruct (elems (WeatherResponse.Weather weather)),
           (elems (AirPollutionResponse.List pollution));
    cbn [app]; repeat (apply Forall_cons; split; [reflexivity|]);
    apply Forall_nil; exact I.
Qed.

(** The writes of a cycle whose weather fetch succeeds: those of the weather
    fetch, then those of the pollution fetch under the weather's station. *)
Lemma cycle_writes (weatherURL pollutionURL : string) (w : world) (resp : Response)
    (weather : WeatherResponse.t) :
  network w (calls w) weatherURL = inl resp →
  StatusCode resp = StatusOK →
  Decode WeatherResponse.decode WeatherResponse.zero (Body resp) = Ok weather →
  ∃ obs : list observation,
    sets (emitted (updateMetrics weatherURL pollutionURL) w)
      = (weatherWrites weather ++ obs)%list
    ∧ (obs = [] ∨
       ∃ pollution : AirPollutionResponse.t,
         obs = pollutionWrites (Itoa (WeatherResponse.ID weather)) pollution).
Proof.
  intros E Hs Hd.
  pose proof (fetchWeatherData_ok weatherURL w resp weather E Hs Hd) as Hok.
  assert (Hr : runFetch (Weather weatherURL) w
               = (None, after w weatherURL (weatherWrites weather))).
  { rewrite runFetch_Weather, Hok. reflexivity. }
  unfold emitted.
  rewrite (updateMetrics_weather_ok weatherURL pollutionURL w _ Hr).
  rewrite Hok. cbn [fst snd].
  set (station := Itoa (WeatherResponse.ID weather)).
  set (w1 := after w weatherURL (weatherWrites weather)).
  destruct (fetch_cases (Pollution pollutionURL station)
              (network w1 (calls w1) pollutionURL)) as [Hf|(resp2 & E2 & Hs2 & Hd2)].
  - destruct (runFetch_failure _ w1 Hf) as [err Hr2]. cbn [runFetch fetchURL] in Hr2.
    rewrite Hr2. cbn [fst snd Printf trace after map]. subst w1. cbn [trace after].
    exists []. split; [|now left].
    rewrite <- !app_assoc, drop_app_length.
    change (EvGet weatherURL :: ?l) with ([EvGet weatherURL] ++ l)%list.
    rewrite !sets_app, sets_EvSet'. reflexivity.
  - pose proof (runFetch_ok (Pollution pollutionURL station) w1 resp2 E2 Hs2 Hd2)
      as Hr2.
    cbn [runFetch fetchURL] in Hr2. rewrite Hr2. cbn [fst snd trace after].
    subst w1. cbn [trace after].
    exists (fetchWrites (Pollution pollutionURL station) (Body resp2)). split.
    + rewrite <- !app_assoc, drop_app_length.
      change (EvGet weatherURL :: ?l) with ([EvGet weatherURL] ++ l)%list.
      rewrite !sets_app, sets_EvSet', sets_Get. reflexivity.
    + right. unfold decodeError in Hd2. unfold fetchWrites.
      destruct (Decode AirPollutionResponse.decode _ _) as [pollution|];
        [|discriminate].
      now exists pollution.
Qed.

(** C10. In a cycle whose weather response decodes to [weather], the weather
    fetch returns the decimal string of [weather.ID] as the station, and
    every gauge write of the cycle, by the weather fetch or by the pollution
    fetch, has that string as its first label value, the one of the label
    [station]. A response object without a key for [id] decodes with [ID] 0,
    so its station is "0"; and when an object with one key for [id] decodes,
    the object without that member decodes too, to the same value but for
    the [ID], which is 0. *)
Theorem station_label :
  (∀ (weatherURL pollutionURL : string) (w : world) (resp : Response)
     (weather : WeatherResponse.t),
     network w (calls w) weatherURL = inl resp →
     StatusCode resp = StatusOK →
     Decode WeatherResponse.decode WeatherResponse.zero (Body resp) = Ok weather →
     (fetchWeatherData weatherURL w).1 = (Itoa (WeatherResponse.ID weather), None)
     ∧ ∀ o : observation,
         o ∈ sets (emitted (updateMetrics weatherURL pollutionURL) w) →
         head o.1.2 = Some (Itoa (WeatherResponse.ID weather))
         ∧ head (labelNames o.1.1) = Some "station")
  ∧ (∀ (members : list (string * json)) (weather : WeatherResponse.t),
       (∀ (k : string) (x : json), (k, x) ∈ members → foldName k ≠ foldName "id") →
       Decode WeatherResponse.decode WeatherResponse.zero (BodyJSON (JObject members))
         = Ok weather →
       WeatherResponse.ID weather = 0 ∧ Itoa (WeatherResponse.ID weather) = "0")
  ∧ (∀ (members rest : list (string * json)) (k : string) (x : json)
       (weather : WeatherResponse.t),
       (∀ (k' : string) (y : json),
          (k', y) ∈ (members ++ rest)%list → foldName k' ≠ foldName "id") →
       foldName k = foldName "id" →
       Decode WeatherResponse.decode WeatherResponse.zero
         (BodyJSON (JObject (members ++ (k, x) :: rest)%list)) = Ok weather →
       Decode WeatherResponse.decode WeatherResponse.zero
         (BodyJSON (JObject (members ++ rest)%list))
         = Ok (WeatherResponse.withID 0 weather)).
Proof.
  split; [|split].
  - intros weatherURL pollutionURL w resp weather E Hs Hd. split.
    + now rewrite (fetchWeatherData_ok weatherURL w resp weather E Hs Hd).
    + destruct (cycle_writes weatherURL pollutionURL w resp weather E Hs Hd)
        as (obs & -> & Hobs).
      intros o Ho. apply elem_of_app in Ho as [Ho|Ho].
      * pose proof (weatherWrites_station weather) as H.
        rewrite Forall_forall in H. now apply H.
      * destruct Hobs as [->|[pollution ->]]; [now apply elem_of_nil in Ho|].
        pose proof (pollutionWrites_station
                      (Itoa (WeatherResponse.ID weather)) pollution) as H.
        rewrite Forall_forall in H. now apply H.
  - intros members weather Hno Hd. cbn [Decode] in Hd.
    unfold WeatherResponse.decode, decodeStruct in Hd.
    rewrite (object_keeps_ID members _ _ Hno Hd). split; reflexivity.
  - intros members rest k x weather Hno Hk Hd. cbn [Decode] in Hd |- *.
    unfold WeatherResponse.decode, decodeStruct in Hd |- *.
    rewrite object_app in Hd |- *.
    destruct (object WeatherResponse.fields members WeatherResponse.zero)
      as [v1|e] eqn:E1; [|discriminate].
    assert (H1 : WeatherResponse.ID v1 = 0).
    { apply (object_keeps_ID members _ _) in E1; [exact E1|].
      intros k' y Hin. apply (Hno k' y), elem_of_app. now left. }
    assert (Hrest : ∀ (k' : string) (y : json),
              (k', y) ∈ rest → foldName k' ≠ foldName "id").
    { intros k' y Hin. apply (Hno k' y), elem_of_app. now right. }
    cbn [mbind result_bind object] in Hd |- *.
    destruct (fieldFor_id k x v1 Hk) as (f & Ef & Hf). rewrite Ef, Hf in Hd.
    destruct (decodeInt x (WeatherResponse.ID v1)) as [n|e]; [|discriminate].
    cbn [mbind result_bind mret result_ret] in Hd.
    rewrite (object_withID rest n v1 Hrest) in Hd.
    destruct (object WeatherResponse.fields rest v1) as [v2|e] eqn:E2;
      [|discriminate].
    injection Hd as <-. f_equal.
    pose proof (object_keeps_ID rest v1 v2 Hrest E2) as H2.
    rewrite H1 in H2. clear E2. destruct v2. cbn [WeatherResponse.ID] in H2.
    subst. reflexivity.
Qed.

Lemma station_label_witness :
  (fetchWeatherData "weather"
     (secondCycle [ inl (mkResponse 200 (BodyJSON anonymousWeather));
                    inl (mkResponse 200 (BodyJSON samplePollution)) ])).1
    = ("0", None)
  ∧ ∀ o : observation,
      o ∈ sets (emitted (updateMetrics "weather" "pollution")
                  (secondCycle [ inl (mkResponse 200 (BodyJSON anonymousWeather));
                                 inl (mkResponse 200 (BodyJSON samplePollution)) ])) →
      head o.1.2 = Some "0" ∧ head (labelNames o.1.1) = Some "station".
Proof.
  refine (proj1 station_label "weather" "pollution"
            (secondCycle [ inl (mkResponse 200 (BodyJSON anonymousWeather));
                           inl (mkResponse 200 (BodyJSON samplePollution)) ])
            (mkResponse 200 (BodyJSON anonymousWeather))
            (match Decode WeatherResponse.decode WeatherResponse.zero
                     (BodyJSON anonymousWeather) with
             | Ok weather => weather
             | Err _ => WeatherResponse.withID 1 WeatherResponse.zero
             end) _ _ _); reflexivity.
Defined.

(** ** The three courses of a cycle *)

Lemma cycle_weather_failed (weatherURL pollutionURL : string) (w : world) :
  fetchFailure (Weather weatherURL) (network w (calls w) weatherURL) →
  ∃ err : error,
    updateMetrics weatherURL pollutionURL w =
      (tt, mkWorld (registry w) (network w) (S (calls w))
             (trace w ++ [EvGet weatherURL;
                          EvLog "Error fetching weather data: %v" err])).
Proof.
  intros Hf. destruct (runFetch_failure (Weather weatherURL) w Hf) as [err Hr].
  exists err. rewrite (updateMetrics_weather_error weatherURL pollutionURL w err Hr).
  unfold Printf, after. cbn [registry network calls trace foldl map].
  now rewrite <- app_assoc.
Qed.

Section WeatherFetched.
Variables (weatherURL pollutionURL : string) (w : world).
Variables (resp : Response) (weather : WeatherResponse.t).
Hypothesis Hget : network w (calls w) weatherURL = inl resp.
Hypothesis Hstatus : StatusCode resp = StatusOK.
Hypothesis Hdecode :
  Decode WeatherResponse.decode WeatherResponse.zero (Body resp) = Ok weather.

Lemma updateMetrics_after_weather :
  updateMetrics weatherURL pollutionURL w =
    (let w1 := after w weatherURL (weatherWrites weather) in
     let r := fetchAirPollutionData pollutionURL
                (Itoa (WeatherResponse.ID weather)) w1 in
     match r.1 with
     | Some err => Printf "Error fetching air pollution data: %v" err r.2
     | None => (tt, r.2)
     end).
Proof.
  pose proof (fetchWeatherData_ok weatherURL w resp weather Hget Hstatus Hdecode)
    as Hok.
  assert (Hr : runFetch (Weather weatherURL) w
               = (None, after w weatherURL (weatherWrites weather))).
  { rewrite runFetch_Weather, Hok. reflexivity. }
  rewrite (updateMetrics_weather_ok weatherURL pollutionURL w _ Hr), Hok.
  reflexivity.
Qed.

Lemma cycle_pollution_failed :
  fetchFailure (Pollution pollutionURL (Itoa (WeatherResponse.ID weather)))
    (network w (S (calls w)) pollutionURL) →
  ∃ err : error,
    updateMetrics weatherURL pollutionURL w =
      (tt, mkWorld (foldl write (registry w) (weatherWrites weather)) (network w)
             (S (S (calls w)))
             (trace w ++ EvGet weatherURL :: map EvSet' (weatherWrites weather)
              ++ [EvGet pollutionURL;
                  EvLog "Error fetching air pollution data: %v" err])).
Proof.
  intros Hf. rewrite updateMetrics_after_weather. cbn zeta.
  destruct (runFetch_failure
              (Pollution pollutionURL (Itoa (WeatherResponse.ID weather)))
              (after w weatherURL (weatherWrites weather)) Hf) as [err Hr].
  cbn [runFetch fetchURL] in Hr. rewrite Hr. exists err.
  unfold Printf, after. cbn [fst snd registry network calls trace foldl map].
  f_equal. f_equal. rewrite <- !app_assoc. reflexivity.
Qed.

Lemma cycle_both_fetched (resp2 : Response) (pollution : AirPollutionResponse.t) :
  network w (S (calls w)) pollutionURL = inl resp2 →
  StatusCode resp2 = StatusOK →
  Decode AirPollutionResponse.decode AirPollutionResponse.zero (Body resp2)
    = Ok pollution →
  updateMetrics weatherURL pollutionURL w =
    (tt, mkWorld
           (foldl write (registry w)
              (weatherWrites weather
               ++ pollutionWrites (Itoa (WeatherResponse.ID weather)) pollution))
           (network w) (S (S (calls w)))
           (trace w ++ EvGet weatherURL :: map EvSet' (weatherWrites weather)
            ++ EvGet pollutionURL
               :: map EvSet'
                    (pollutionWrites (Itoa (WeatherResponse.ID weather)) pollution))).
Proof.
  intros E2 Hs2 Hd2. rewrite updateMetrics_after_weather. cbn zeta.
  rewrite (fetchAirPollutionData_ok pollutionURL _
             (after w weatherURL (weatherWrites weather)) resp2 pollution E2 Hs2 Hd2).
  unfold after. cbn [fst snd registry network calls trace].
  rewrite foldl_app. f_equal. f_equal. rewrite <- !app_assoc. reflexivity.
Qed.
End WeatherFetched.

Lemma sets_cycle (weatherURL pollutionURL : string) (W P : list observation)
    (rest : list event) :
  sets rest = [] →
  sets (EvGet weatherURL :: map EvSet' W ++ EvGet pollutionURL :: map EvSet' P ++ rest)
    = (W ++ P)%list.
Proof.
  intros Hrest.
  change (EvGet weatherURL :: ?l) with ([EvGet weatherURL] ++ l)%list.
  change (EvGet pollutionURL :: ?l) with ([EvGet pollutionURL] ++ l)%list.
  rewrite !sets_app, !sets_EvSet', Hrest. cbn [sets omap app].
  now rewrite app_nil_r.
Qed.

Lemma gets_EvSet' (obs : list observation) : gets (map EvSet' obs) = [].
Proof. induction obs as [|[[vec lvs] v] obs IH]; [reflexivity|exact IH]. Qed.

Lemma logs_EvSet' (obs : list observation) : logs (map EvSet' obs) = [].
Proof. induction obs as [|[[vec lvs] v] obs IH]; [reflexivity|exact IH]. Qed.

Lemma gets_cycle (weatherURL pollutionURL : string) (W P : list observation)
    (rest : list event) :
  gets rest = [] →
  gets (EvGet weatherURL :: map EvSet' W ++ EvGet pollutionURL :: map EvSet' P ++ rest)
    = [weatherURL; pollutionURL].
Proof.
  intros Hrest.
  change (EvGet weatherURL :: ?l) with ([EvGet weatherURL] ++ l)%list.
  change (EvGet pollutionURL :: ?l) with ([EvGet pollutionURL] ++ l)%list.
  unfold gets in *. rewrite !omap_app. fold gets.
  rewrite !gets_EvSet'. unfold gets. rewrite Hrest. reflexivity.
Qed.

(** A cycle takes one of the three courses; the registry after it is the
    registry before it with the writes of the trace applied in order, and
    the calls made are the fetches of the trace. *)
Lemma cycle_summary (weatherURL pollutionURL : string) (w : world) :
  ∃ evs : list event,
    cycleTrace weatherURL pollutionURL evs
    ∧ updateMetrics weatherURL pollutionURL w =
        (tt, mkWorld (foldl write (registry w) (sets evs)) (network w)
               (calls w + length (gets evs)) (trace w ++ evs)).
Proof.
  destruct (fetch_cases (Weather weatherURL) (network w (calls w) weatherURL))
    as [Hf|(resp & E & Hs & Hd)].
  - destruct (cycle_weather_failed weatherURL pollutionURL w Hf) as [err ->].
    eexists. split; [apply (WeatherFailed _ _ err)|].
    cbn [sets gets omap foldl length]. now rewrite Nat.add_1_r.
  - unfold decodeError in Hd.
    destruct (Decode WeatherResponse.decode _ _) as [weather|] eqn:Hw;
      [clear Hd|discriminate].
    destruct (fetch_cases (Pollution pollutionURL (Itoa (WeatherResponse.ID weather)))
                (network w (S (calls w)) pollutionURL))
      as [Hf|(resp2 & E2 & Hs2 & Hd2)].
    + destruct (cycle_pollution_failed weatherURL pollutionURL w resp weather
                  E Hs Hw Hf) as [err ->].
      eexists. split; [apply (PollutionFailed _ _ weather err)|].
      pose proof (sets_cycle weatherURL pollutionURL (weatherWrites weather) []
                    [EvLog "Error fetching air pollution data: %v" err] eq_refl)
        as Hsets.
      pose proof (gets_cycle weatherURL pollutionURL (weatherWrites weather) []
                    [EvLog "Error fetching air pollution data: %v" err] eq_refl)
        as Hgets.
      cbn [map app] in Hsets, Hgets. rewrite app_nil_r in Hsets.
      rewrite Hsets, Hgets. cbn [length]. now rewrite Nat.add_comm.
    + unfold decodeError in Hd2.
      destruct (Decode AirPollutionResponse.decode _ _) as [pollution|] eqn:Hp;
        [clear Hd2|discriminate].
      rewrite (cycle_both_fetched weatherURL pollutionURL w resp weather
                 E Hs Hw resp2 pollution E2 Hs2 Hp).
      eexists. split; [apply (BothFetched _ _ weather pollution)|].
      pose proof (sets_cycle weatherURL pollutionURL (weatherWrites weather)
                    (pollutionWrites (Itoa (WeatherResponse.ID weather)) pollution)
                    [] eq_refl) as Hsets.
      pose proof (gets_cycle weatherURL pollutionURL (weatherWrites weather)
                    (pollutionWrites (Itoa (WeatherResponse.ID weather)) pollution)
                    [] eq_refl) as Hgets.
      rewrite app_nil_r in Hsets, Hgets. rewrite Hsets, Hgets.
      cbn [length]. now rewrite Nat.add_comm.
Qed.

(** ** Applying a list of writes *)

Lemma foldl_write_is_Some (r : gmap (string * list string) float64)
    (obs : list observation) (k : string * list string) :
  is_Some (r !! k) → is_Some (foldl write r obs !! k).
Proof.
  revert r. induction obs as [|o obs IH]; intros r Hk; [exact Hk|].
  cbn [foldl]. apply IH. unfold write. rewrite lookup_insert_is_Some.
  destruct (decide (key o = k)); [now left|now right].
Qed.

(** An entry after the writes is an entry from before or the value of a write. *)
Lemma foldl_write_lookup (r : gmap (string * list string) float64)
    (obs : list observation) (k : string * list string) (v : float64) :
  foldl write r obs !! k = Some v →
  r !! k = Some v ∨ ∃ o : observation, o ∈ obs ∧ key o = k ∧ o.2 = v.
Proof.
  revert r. induction obs as [|o obs IH]; intros r Hk; [now left|].
  cbn [foldl] in Hk. destruct (IH _ Hk) as [Hw|(o' & Hin & Hkey & Hv)].
  - unfold write in Hw. apply lookup_insert_Some in Hw as [[Hkey Hv]|[_ Hr]].
    + right. exists o. split; [apply list_elem_of_here|now split].
    + now left.
  - right. exists o'. split; [now apply list_elem_of_further|now split].
Qed.

(** The entry of a written key does not depend on the registry before. *)
Lemma foldl_write_written (r r' : gmap (string * list string) float64)
    (obs : list observation) (k : string * list string) :
  k ∈ map key obs → foldl write r obs !! k = foldl write r' obs !! k.
Proof.
  revert r r'. induction obs as [|o obs IH]; intros r r' Hk.
  - now apply elem_of_nil in Hk.
  - cbn [foldl]. destruct (decide (k ∈ map key obs)) as [Hin|Hout].
    + now apply IH.
    + rewrite !foldl_write_other by assumption.
      cbn [map] in Hk. apply elem_of_cons in Hk as [->|Hin]; [|contradiction].
      unfold write. now rewrite !lookup_insert_eq.
Qed.

(** Applying the same writes again changes nothing. *)
Lemma foldl_write_twice (r : gmap (string * list string) float64)
    (obs : list observation) :
  foldl write (foldl write r obs) obs = foldl write r obs.
Proof.
  apply map_eq. intros k. destruct (decide (k ∈ map key obs)) as [Hin|Hout].
  - now apply foldl_write_written.
  - now rewrite foldl_write_other.
Qed.

(** ** What the program writes *)

Lemma pollutionWrites_vecs (station : string) (pollution : AirPollutionResponse.t) :
  Forall (λ o : observation, o.1.1 ∈ pollutionVecs)
         (pollutionWrites station pollution).
Proof.
  unfold pollutionWrites, pollutionVecs.
  destruct (elems (AirPollutionResponse.List pollution));
    repeat (apply Forall_cons; split; [apply list_elem_of_In; simpl; tauto|]);
    apply Forall_nil; exact I.
Qed.

Lemma weatherWrites_cycleWrite (weather : WeatherResponse.t) :
  Forall (cycleWrite (Itoa (WeatherResponse.ID weather))) (weatherWrites weather).
Proof.
  unfold weatherWrites, cycleWrite, registered, weatherVecs, pollutionVecs.
  destruct (elems (WeatherResponse.Weather weather));
    repeat (apply Forall_cons; split;
            [ split; [apply list_elem_of_In; simpl; tauto|];
              split; [reflexivity|]; split; [reflexivity|];
              intros H; first [discriminate H|reflexivity]
            | ]);
    apply Forall_nil; exact I.
Qed.

Lemma pollutionWrites_cycleWrite (station : string)
    (pollution : AirPollutionResponse.t) :
  Forall (cycleWrite station) (pollutionWrites station pollution).
Proof.
  unfold pollutionWrites, cycleWrite, registered, weatherVecs, pollutionVecs.
  destruct (elems (AirPollutionResponse.List pollution));
    repeat (apply Forall_cons; split;
            [ split; [apply list_elem_of_In; simpl; tauto|];
              split; [reflexivity|]; split; [reflexivity|];
              intros H; discriminate H
            | ]);
    apply Forall_nil; exact I.
Qed.

Lemma cycleTrace_writes (weatherURL pollutionURL : string) (evs : list event) :
  cycleTrace weatherURL pollutionURL evs →
  ∃ station : string, Forall (cycleWrite station) (sets evs).
Proof.
  intros [err|weather err|weather pollution].
  - exists "". apply Forall_nil. exact I.
  - exists (Itoa (WeatherResponse.ID weather)).
    pose proof (sets_cycle weatherURL pollutionURL (weatherWrites weather) []
                  [EvLog "Error fetching air pollution data: %v" err] eq_refl) as H.
    cbn [map app] in H. rewrite app_nil_r in H. rewrite H.
    apply weatherWrites_cycleWrite.
  - exists (Itoa (WeatherResponse.ID weather)).
    pose proof (sets_cycle weatherURL pollutionURL (weatherWrites weather)
                  (pollutionWrites (Itoa (WeatherResponse.ID weather)) pollution)
                  [] eq_refl) as H.
    rewrite app_nil_r in H. rewrite H. apply Forall_app. split.
    + apply weatherWrites_cycleWrite.
    + apply pollutionWrites_cycleWrite.
Qed.

Lemma cycleTrace_gets (weatherURL pollutionURL : string) (evs : list event) :
  cycleTrace weatherURL pollutionURL evs →
  (1 ≤ length (gets evs) ≤ 2)%nat.
Proof.
  intros [err|weather err|weather pollution].
  - cbn. lia.
  - pose proof (gets_cycle weatherURL pollutionURL (weatherWrites weather) []
                  [EvLog "Error fetching air pollution data: %v" err] eq_refl) as H.
    cbn [map app] in H. rewrite H. cbn. lia.
  - pose proof (gets_cycle weatherURL pollutionURL (weatherWrites weather)
                  (pollutionWrites (Itoa (WeatherResponse.ID weather)) pollution)
                  [] eq_refl) as H.
    rewrite app_nil_r in H. rewrite H. cbn. lia.
Qed.

(** ** The refresh loop *)

Lemma refreshes_S (n : nat) (c : config) (w : world) :
  refreshes (S n) c w
    = refreshes n c (updateMetrics (currentWeatherURL c) (pollutionURL c) w).2.
Proof.
  cbn [refreshes]. unfold mbind, M_bind.
  now destruct (updateMetrics (currentWeatherURL c) (pollutionURL c) w).
Qed.

(** What every cycle keeps, the refreshes keep. *)
Lemma refreshes_invariant (I : world → Prop) (c : config) :
  (∀ w : world,
     I w → I (updateMetrics (currentWeatherURL c) (pollutionURL c) w).2) →
  ∀ (n : nat) (w : world), I w → I (refreshes n c w).2.
Proof.
  intros Hstep n. induction n as [|n IH]; intros w Hw; [exact Hw|].
  rewrite refreshes_S. apply IH, Hstep, Hw.
Qed.

(** ** A cycle as a whole *)

Lemma cycle_NoDup (weather : WeatherResponse.t) (station : string)
    (pollution : AirPollutionResponse.t) :
  NoDup (map key (weatherWrites weather ++ pollutionWrites station pollution)).
Proof.
  apply NoDup_keys. unfold weatherWrites, pollutionWrites.
  destruct (elems (WeatherResponse.Weather weather)),
           (elems (AirPollutionResponse.List pollution)); cbn;
    apply (bool_decide_unpack _); vm_compute; reflexivity.
Qed.

Lemma logs_cycle (weatherURL pollutionURL : string) (W P : list observation)
    (rest : list event) :
  logs (EvGet weatherURL :: map EvSet' W ++ EvGet pollutionURL :: map EvSet' P ++ rest)
    = logs rest.
Proof.
  change (EvGet weatherURL :: ?l) with ([EvGet weatherURL] ++ l)%list.
  change (EvGet pollutionURL :: ?l) with ([EvGet pollutionURL] ++ l)%list.
  unfold logs. rewrite !omap_app. fold logs. rewrite !logs_EvSet'. reflexivity.
Qed.

Lemma fetched_not_failed (f : fetch) (r : Response + error) :
  fetched f r → ¬ fetchFailure f r.
Proof.
  intros (resp & -> & Hs & Hd) Hf.
  inversion Hf as [| resp' Hne | resp' err Hs' Hd']; subst.
  - contradiction.
  - rewrite Hd in Hd'. discriminate.
Qed.

Lemma fetchFailure_station (url station station' : string) (r : Response + error) :
  fetchFailure (Pollution url station) r → fetchFailure (Pollution url station') r.
Proof.
  intros [err|resp Hs|resp err Hs Hd].
  - constructor.
  - now constructor.
  - now apply DecodeFailure with err.
Qed.

(** X1. A cycle whose two fetches succeed calls the weather URL, sets the
    weather gauges, calls the pollution URL and sets the pollution gauges
    under the weather's station, in this order, and logs nothing; at its end
    every one of these writes is the entry of its key. *)
Theorem successful_cycle (weatherURL pollutionURL : string) (w : world)
    (resp resp2 : Response) (weather : WeatherResponse.t)
    (pollution : AirPollutionResponse.t) :
  network w (calls w) weatherURL = inl resp →
  StatusCode resp = StatusOK →
  Decode WeatherResponse.decode WeatherResponse.zero (Body resp) = Ok weather →
  network w (S (calls w)) pollutionURL = inl resp2 →
  StatusCode resp2 = StatusOK →
  Decode AirPollutionResponse.decode AirPollutionResponse.zero (Body resp2)
    = Ok pollution →
  emitted (updateMetrics weatherURL pollutionURL) w =
    (EvGet weatherURL :: map EvSet' (weatherWrites weather)
     ++ EvGet pollutionURL
        :: map EvSet' (pollutionWrites (Itoa (WeatherResponse.ID weather)) pollution))%list
  ∧ calls (updateMetrics weatherURL pollutionURL w).2 = S (S (calls w))
  ∧ ∀ o : observation,
      o ∈ (weatherWrites weather
           ++ pollutionWrites (Itoa (WeatherResponse.ID weather)) pollution)%list →
      registry (updateMetrics weatherURL pollutionURL w).2 !! key o = Some o.2.
Proof.
  intros E Hs Hd E2 Hs2 Hd2. unfold emitted.
  rewrite (cycle_both_fetched weatherURL pollutionURL w resp weather E Hs Hd
             resp2 pollution E2 Hs2 Hd2).
  cbn [snd trace calls registry]. rewrite drop_app_length.
  split; [reflexivity|]. split; [reflexivity|].
  intros o Ho. apply foldl_write_in; [apply cycle_NoDup|exact Ho].
Qed.

Lemma successful_cycle_witness :
  registry (updateMetrics "weather" "pollution"
              (startWorld [ inl (mkResponse 200 (BodyJSON sampleWeather));
                            inl (mkResponse 200 (BodyJSON samplePollution)) ])).2
    !! ("ow_air_pollution_aqi", ["42"]) = Some (float64_of_int 3).
Proof.
  refine (proj2 (proj2
            (successful_cycle "weather" "pollution"
               (startWorld [ inl (mkResponse 200 (BodyJSON sampleWeather));
                             inl (mkResponse 200 (BodyJSON samplePollution)) ])
               (mkResponse 200 (BodyJSON sampleWeather))
               (mkResponse 200 (BodyJSON samplePollution))
               (match Decode WeatherResponse.decode WeatherResponse.zero
                        (BodyJSON sampleWeather) with
                | Ok weather => weather
                | Err _ => WeatherResponse.zero
                end)
               (match Decode AirPollutionResponse.decode AirPollutionResponse.zero
                        (BodyJSON samplePollution) with
                | Ok pollution => pollution
                | Err _ => AirPollutionResponse.zero
                end) _ _ _ _ _ _))
            (owAirPollutionAQI, ["42"], float64_of_int 3) _);
    try reflexivity.
  vm_compute. do 13 apply list_elem_of_further. apply list_elem_of_here.
Defined.

(** X2. A cycle logs at most one line, and none exactly when its weather
    fetch and its pollution fetch both succeed. *)
Theorem cycle_logs (weatherURL pollutionURL : string) (w : world) :
  (length (logs (emitted (updateMetrics weatherURL pollutionURL) w)) ≤ 1)%nat
  ∧ (logs (emitted (updateMetrics weatherURL pollutionURL) w) = []
     ↔ fetched (Weather weatherURL) (network w (calls w) weatherURL)
       ∧ fetched (Pollution pollutionURL (fetchWeatherData weatherURL w).1.1)
                 (network w (S (calls w)) pollutionURL)).
Proof.
  unfold emitted.
  destruct (fetch_cases (Weather weatherURL) (network w (calls w) weatherURL))
    as [Hf|(resp & E & Hs & Hd)].
  - destruct (cycle_weather_failed weatherURL pollutionURL w Hf) as [err ->].
    cbn [snd trace]. rewrite drop_app_length. cbn. split; [lia|]. split.
    + discriminate.
    + intros [Hw _]. now destruct (fetched_not_failed _ _ Hw).
  - assert (Hw : fetched (Weather weatherURL) (network w (calls w) weatherURL))
      by now exists resp.
    unfold decodeError in Hd.
    destruct (Decode WeatherResponse.decode _ _) as [weather|] eqn:Hdw;
      [clear Hd|discriminate].
    rewrite (fetchWeatherData_ok weatherURL w resp weather E Hs Hdw). cbn [fst].
    destruct (fetch_cases (Pollution pollutionURL (Itoa (WeatherResponse.ID weather)))
                (network w (S (calls w)) pollutionURL))
      as [Hf|(resp2 & E2 & Hs2 & Hd2)].
    + destruct (cycle_pollution_failed weatherURL pollutionURL w resp weather
                  E Hs Hdw Hf) as [err ->].
      cbn [snd trace]. rewrite drop_app_length.
      pose proof (logs_cycle weatherURL pollutionURL (weatherWrites weather) []
                    [EvLog "Error fetching air pollution data: %v" err]) as Hl.
      cbn [map app] in Hl. rewrite Hl. cbn. split; [lia|]. split.
      * discriminate.
      * intros [_ Hp]. now destruct (fetched_not_failed _ _ Hp).
    + assert (Hp : fetched (Pollution pollutionURL
                              (Itoa (WeatherResponse.ID weather)))
                     (network w (S (calls w)) pollutionURL)) by now exists resp2.
      unfold decodeError in Hd2.
      destruct (Decode AirPollutionResponse.decode _ _) as [pollution|] eqn:Hdp;
        [clear Hd2|discriminate].
      rewrite (cycle_both_fetched weatherURL pollutionURL w resp weather E Hs Hdw
                 resp2 pollution E2 Hs2 Hdp).
      cbn [snd trace]. rewrite drop_app_length.
      pose proof (logs_cycle weatherURL pollutionURL (weatherWrites weather)
                    (pollutionWrites (Itoa (WeatherResponse.ID weather)) pollution)
                    []) as Hl.
      rewrite app_nil_r in Hl. rewrite Hl. cbn. split; [lia|]. now split.
Qed.

Lemma cycle_writes_station (weatherURL pollutionURL : string) (w : world) :
  ∃ obs : list observation,
    registry (updateMetrics weatherURL pollutionURL w).2
      = foldl write (registry w) obs
    ∧ Forall (cycleWrite (fetchWeatherData weatherURL w).1.1) obs.
Proof.
  destruct (fetch_cases (Weather weatherURL) (network w (calls w) weatherURL))
    as [Hf|(resp & E & Hs & Hd)].
  - destruct (cycle_weather_failed weatherURL pollutionURL w Hf) as [err ->].
    exists []. split; [reflexivity|]. apply Forall_nil. exact I.
  - unfold decodeError in Hd.
    destruct (Decode WeatherResponse.decode _ _) as [weather|] eqn:Hdw;
      [clear Hd|discriminate].
    rewrite (fetchWeatherData_ok weatherURL w resp weather E Hs Hdw). cbn [fst].
    destruct (fetch_cases (Pollution pollutionURL (Itoa (WeatherResponse.ID weather)))
                (network w (S (calls w)) pollutionURL))
      as [Hf|(resp2 & E2 & Hs2 & Hd2)].
    + destruct (cycle_pollution_failed weatherURL pollutionURL w resp weather
                  E Hs Hdw Hf) as [err ->].
      exists (weatherWrites weather). split; [reflexivity|].
      apply weatherWrites_cycleWrite.
    + unfold decodeError in Hd2.
      destruct (Decode AirPollutionResponse.decode _ _) as [pollution|] eqn:Hdp;
        [clear Hd2|discriminate].
      rewrite (cycle_both_fetched weatherURL pollutionURL w resp weather E Hs Hdw
                 resp2 pollution E2 Hs2 Hdp).
      eexists. split; [reflexivity|]. apply Forall_app. split.
      * apply weatherWrites_cycleWrite.
      * apply pollutionWrites_cycleWrite.
Qed.

(** X3. A cycle changes no entry of another station: an entry whose first
    label value is not the station returned by the weather fetch of the
    cycle is after the cycle what it was before. *)
Theorem cycle_writes_own_station (weatherURL pollutionURL : string) (w : world)
    (k : string * list string) :
  head k.2 ≠ Some (fetchWeatherData weatherURL w).1.1 →
  registry (updateMetrics weatherURL pollutionURL w).2 !! k = registry w !! k.
Proof.
  intros Hk.
  destruct (cycle_writes_station weatherURL pollutionURL w) as (obs & -> & Hobs).
  apply foldl_write_other. intros Hin.
  apply list_elem_of_fmap in Hin as (o & -> & Hin).
  rewrite Forall_forall in Hobs. destruct (Hobs o Hin) as (_ & _ & Hst & _).
  now apply Hk.
Qed.

Lemma cycle_writes_own_station_witness :
  registry (updateMetrics "weather" "pollution"
              (secondCycle [ inl (mkResponse 200 (BodyJSON anonymousWeather));
                             inl (mkResponse 200 (BodyJSON samplePollution)) ])).2
    !! ("ow_weather_temp", ["42"])
  = registry (secondCycle [ inl (mkResponse 200 (BodyJSON anonymousWeather));
                            inl (mkResponse 200 (BodyJSON samplePollution)) ])
      !! ("ow_weather_temp", ["42"]).
Proof.
  apply (cycle_writes_own_station "weather" "pollution"
           (secondCycle [ inl (mkResponse 200 (BodyJSON anonymousWeather));
                          inl (mkResponse 200 (BodyJSON samplePollution)) ])
           ("ow_weather_temp", ["42"])).
  vm_compute. discriminate.
Defined.

(** X4. A cycle that gets the answers of the cycle before it leaves the
    registry as that cycle left it. *)
Theorem repeated_cycle (weatherURL pollutionURL : string) (w : world) :
  network w (calls (updateMetrics weatherURL pollutionURL w).2) weatherURL
    = network w (calls w) weatherURL →
  network w (S (calls (updateMetrics weatherURL pollutionURL w).2)) pollutionURL
    = network w (S (calls w)) pollutionURL →
  registry (updateMetrics weatherURL pollutionURL
              (updateMetrics weatherURL pollutionURL w).2).2
    = registry (updateMetrics weatherURL pollutionURL w).2.
Proof.
  destruct (fetch_cases (Weather weatherURL) (network w (calls w) weatherURL))
    as [Hf|(resp & E & Hs & Hd)].
  - destruct (cycle_weather_failed weatherURL pollutionURL w Hf) as [err ->].
    cbn [snd calls]. intros H1 _.
    match goal with
    | |- registry (updateMetrics _ _ ?w1).2 = _ =>
        destruct (cycle_weather_failed weatherURL pollutionURL w1) as [err' ->]
    end.
    + cbn [network calls]. now rewrite H1.
    + reflexivity.
  - unfold decodeError in Hd.
    destruct (Decode WeatherResponse.decode _ _) as [weather|] eqn:Hdw;
      [clear Hd|discriminate].
    destruct (fetch_cases (Pollution pollutionURL (Itoa (WeatherResponse.ID weather)))
                (network w (S (calls w)) pollutionURL))
      as [Hf|(resp2 & E2 & Hs2 & Hd2)].
    + destruct (cycle_pollution_failed weatherURL pollutionURL w resp weather
                  E Hs Hdw Hf) as [err ->].
      cbn [snd calls]. intros H1 H2.
      match goal with
      | |- registry (updateMetrics _ _ ?w1).2 = _ =>
          destruct (cycle_pollution_failed weatherURL pollutionURL w1 resp weather)
            as [err' ->]
      end.
      * cbn [network calls]. now rewrite H1.
      * exact Hs.
      * exact Hdw.
      * cbn [network calls]. now rewrite H2.
      * cbn [snd registry]. apply foldl_write_twice.
    + unfold decodeError in Hd2.
      destruct (Decode AirPollutionResponse.decode _ _) as [pollution|] eqn:Hdp;
        [clear Hd2|discriminate].
      rewrite (cycle_both_fetched weatherURL pollutionURL w resp weather E Hs Hdw
                 resp2 pollution E2 Hs2 Hdp).
      cbn [snd calls]. intros H1 H2.
      match goal with
      | |- registry (updateMetrics _ _ ?w1).2 = _ =>
          rewrite (cycle_both_fetched weatherURL pollutionURL w1 resp weather)
            with (resp2 := resp2) (pollution := pollution)
      end.
      * cbn [snd registry]. apply foldl_write_twice.
      * cbn [network calls]. now rewrite H1.
      * exact Hs.
      * exact Hdw.
      * cbn [network calls]. now rewrite H2.
      * exact Hs2.
      * exact Hdp.
Qed.

Lemma repeated_cycle_witness :
  registry (updateMetrics "weather" "pollution"
              (updateMetrics "weather" "pollution"
                 (startWorld [ inl (mkResponse 200 (BodyJSON sampleWeather));
                               inl (mkResponse 503 (BodyJSON JNull));
                               inl (mkResponse 200 (BodyJSON sampleWeather));
                               inl (mkResponse 503 (BodyJSON JNull)) ])).2).2
    = registry (updateMetrics "weather" "pollution"
                  (startWorld [ inl (mkResponse 200 (BodyJSON sampleWeather));
                                inl (mkResponse 503 (BodyJSON JNull));
                                inl (mkResponse 200 (BodyJSON sampleWeather));
                                inl (mkResponse 503 (BodyJSON JNull)) ])).2.
Proof.
  apply (repeated_cycle "weather" "pollution"
           (startWorld [ inl (mkResponse 200 (BodyJSON sampleWeather));
                         inl (mkResponse 503 (BodyJSON JNull));
                         inl (mkResponse 200 (BodyJSON sampleWeather));
                         inl (mkResponse 503 (BodyJSON JNull)) ]));
    vm_compute; reflexivity.
Defined.

(** ** The refreshes of [main] *)

Lemma refreshes_calls (n : nat) (c : config) (w : world) :
  (calls w + n ≤ calls (refreshes n c w).2 ≤ calls w + 2 * n)%nat.
Proof.
  revert w. induction n as [|n IH]; intros w; [cbn; lia|].
  rewrite refreshes_S. specialize (IH (updateMetrics (currentWeatherURL c)
                                          (pollutionURL c) w).2).
  destruct (cycle_summary (currentWeatherURL c) (pollutionURL c) w)
    as (evs & Hevs & Hw).
  rewrite Hw in IH |- *. cbn [snd calls] in IH |- *.
  pose proof (cycleTrace_gets _ _ _ Hevs). lia.
Qed.

Lemma main_unfold (dotenv : option error) (Getenv : string → string)
    (ticks : nat) (w : world) :
  ∃ w0 : world,
    calls w0 = calls w ∧ registry w0 = registry w
    ∧ main dotenv Getenv ticks w =
        match configure Getenv with
        | inl msg => (inl msg, w0)
        | inr c =>
            (inr c,
             (refreshes ticks c
                (updateMetrics (currentWeatherURL c) (pollutionURL c) w0).2).2)
        end.
Proof.
  exists (match dotenv with
          | Some err =>
              (Printf "Warning: .env file not found, using system environment variables: %v"
                      err w).2
          | None => w
          end).
  split; [now destruct dotenv|]. split; [now destruct dotenv|].
  unfold main. destruct dotenv as [err|]; destruct (configure Getenv) as [msg|c];
    try reflexivity; unfold mbind, M_bind, mret, M_ret; cbn [Printf snd];
    match goal with
    | |- context [updateMetrics ?a ?b ?w1] =>
        destruct (updateMetrics a b w1) as [[] w2]
    end;
    cbn [snd]; now destruct (refreshes ticks c w2) as [[] w3].
Qed.

(** X5. [main] checks its configuration before it fetches: when the
    configuration is refused it returns the message without a call of
    [http.Get] and without a write. When it is accepted, [main] has made,
    after the initial fetch and [ticks] ticks, at least one call per cycle
    and at most two. *)
Theorem main_calls (dotenv : option error) (Getenv : string → string)
    (ticks : nat) (w : world) :
  match configure Getenv with
  | inl msg =>
      (main dotenv Getenv ticks w).1 = inl msg
      ∧ calls (main dotenv Getenv ticks w).2 = calls w
      ∧ registry (main dotenv Getenv ticks w).2 = registry w
  | inr c =>
      (main dotenv Getenv ticks w).1 = inr c
      ∧ (calls w + S ticks ≤ calls (main dotenv Getenv ticks w).2
         ≤ calls w + 2 * S ticks)%nat
  end.
Proof.
  destruct (main_unfold dotenv Getenv ticks w) as (w0 & Hc & Hr & ->).
  destruct (configure Getenv) as [msg|c]; cbn [fst snd].
  - auto.
  - split; [reflexivity|]. rewrite <- refreshes_S.
    pose proof (refreshes_calls (S ticks) c w0) as H. lia.
Qed.

(** X6. The refreshes never remove an entry: a key that has an entry keeps
    one through any number of cycles. *)
Theorem refreshes_keep_entries (n : nat) (c : config) (w : world)
    (k : string * list string) :
  is_Some (registry w !! k) → is_Some (registry (refreshes n c w).2 !! k).
Proof.
  revert n w.
  apply (refreshes_invariant (λ w, is_Some (registry w !! k))).
  intros w Hk.
  destruct (cycle_summary (currentWeatherURL c) (pollutionURL c) w)
    as (evs & _ & ->).
  cbn [snd registry]. now apply foldl_write_is_Some.
Qed.

Lemma refreshes_keep_entries_witness :
  is_Some (registry (refreshes 3 sampleConfig
                       (secondCycle [inl (mkResponse 200 (BodyJSON rainyWeather))])).2
             !! ("ow_air_pollution_co", ["42"])).
Proof.
  apply (refreshes_keep_entries 3 sampleConfig
           (secondCycle [inl (mkResponse 200 (BodyJSON rainyWeather))])
           ("ow_air_pollution_co", ["42"])).
  eexists. vm_compute. reflexivity.
Defined.

(** X7. A condition entry that is 1 stays 1 through any number of cycles,
    whatever the conditions of the later responses: the program sets
    condition entries to 1 only, and removes none. *)
Theorem condition_stays_active (n : nat) (c : config) (w : world)
    (lvs : list string) :
  registry w !! ("ow_weather_condition", lvs) = Some float64_one →
  registry (refreshes n c w).2 !! ("ow_weather_condition", lvs) = Some float64_one.
Proof.
  revert n w.
  apply (refreshes_invariant
           (λ w, registry w !! ("ow_weather_condition", lvs) = Some float64_one)).
  intros w Hk.
  destruct (cycle_summary (currentWeatherURL c) (pollutionURL c) w)
    as (evs & Hevs & ->).
  cbn [snd registry].
  destruct (foldl_write_is_Some (registry w) (sets evs)
              ("ow_weather_condition", lvs)) as [v Hv]; [now rewrite Hk|].
  rewrite Hv. f_equal.
  destruct (foldl_write_lookup _ _ _ _ Hv) as [Hold|(o & Hin & Hkey & <-)].
  - congruence.
  - destruct (cycleTrace_writes _ _ _ Hevs) as [station Hw].
    rewrite Forall_forall in Hw. destruct (Hw o Hin) as (_ & _ & _ & Hone).
    apply Hone. unfold key in Hkey. congruence.
Qed.

Lemma condition_stays_active_witness :
  registry (refreshes 1 sampleConfig
              (secondCycle [inl (mkResponse 200 (BodyJSON rainyWeather))])).2
    !! ("ow_weather_condition", ["42"; "Clouds"; "overcast clouds"])
  = Some float64_one.
Proof.
  apply (condition_stays_active 1 sampleConfig
           (secondCycle [inl (mkResponse 200 (BodyJSON rainyWeather))])
           ["42"; "Clouds"; "overcast clouds"]).
  vm_compute. reflexivity.
Defined.

(** X8. The keys of the registry stay those of registered vectors, each with
    as many label values as its vector has label names. *)
Theorem refreshes_registered_keys (n : nat) (c : config) (w : world) :
  (∀ k : string * list string, is_Some (registry w !! k) → registeredKey k) →
  ∀ k : string * list string,
    is_Some (registry (refreshes n c w).2 !! k) → registeredKey k.
Proof.
  revert n w.
  apply (refreshes_invariant
           (λ w, ∀ k : string * list string,
                   is_Some (registry w !! k) → registeredKey k)).
  intros w Hw k [v Hv].
  destruct (cycle_summary (currentWeatherURL c) (pollutionURL c) w)
    as (evs & Hevs & E).
  rewrite E in Hv. cbn [snd registry] in Hv.
  destruct (foldl_write_lookup _ _ _ _ Hv) as [Hold|(o & Hin & <- & _)].
  - apply Hw. now exists v.
  - destruct (cycleTrace_writes _ _ _ Hevs) as [station Hobs].
    rewrite Forall_forall in Hobs. destruct (Hobs o Hin) as (Hreg & Har & _).
    exists o.1.1. now repeat split.
Qed.

Lemma refreshes_registered_keys_witness :
  registeredKey ("ow_weather_condition", ["42"; "Clouds"; "overcast clouds"]).
Proof.
  apply (refreshes_registered_keys 2 sampleConfig
           (startWorld [ inl (mkResponse 200 (BodyJSON sampleWeather));
                         inl (mkResponse 200 (BodyJSON samplePollution)) ])).
  - intros k [v Hv]. simpl in Hv. rewrite lookup_empty in Hv. discriminate.
  - eexists. vm_compute. reflexivity.
Defined.

(** ** The configuration *)

Lemma configure_inr (Getenv : string → string) (c : config) :
  configure Getenv = inr c →
  ∃ units : string,
    units ∈ ["standard"; "imperial"; "metric"]
    ∧ units = (if String.eqb (Getenv "UNITS") "" then "standard" else Getenv "UNITS")
    ∧ Getenv "LATITUDE" ≠ "" ∧ Getenv "LONGITUDE" ≠ ""
    ∧ Getenv "OPENWEATHER_API_KEY" ≠ ""
    ∧ c = mkConfig
            ("https://api.openweathermap.org/data/2.5/weather?lat="
             +:+ Getenv "LATITUDE" +:+ "&lon=" +:+ Getenv "LONGITUDE"
             +:+ "&appid=" +:+ Getenv "OPENWEATHER_API_KEY" +:+ "&units=" +:+ units)
            ("https://api.openweathermap.org/data/2.5/air_pollution?lat="
             +:+ Getenv "LATITUDE" +:+ "&lon=" +:+ Getenv "LONGITUDE"
             +:+ "&appid=" +:+ Getenv "OPENWEATHER_API_KEY")
            (if String.eqb (Getenv "EXPORTER_PORT") "" then "8080"
             else Getenv "EXPORTER_PORT").
Proof.
  unfold configure.
  set (units := if String.eqb (Getenv "UNITS") "" then "standard" else Getenv "UNITS").
  destruct (String.eqb_spec units "standard") as [Hu1|Hu1];
    destruct (String.eqb_spec units "imperial") as [Hu2|Hu2];
    destruct (String.eqb_spec units "metric") as [Hu3|Hu3];
    cbn [negb andb]; try discriminate;
    destruct (String.eqb_spec (Getenv "LATITUDE") "") as [Hlat|Hlat];
    destruct (String.eqb_spec (Getenv "LONGITUDE") "") as [Hlon|Hlon];
    destruct (String.eqb_spec (Getenv "OPENWEATHER_API_KEY") "") as [Hkey|Hkey];
    cbn [orb]; try discriminate;
    intros [= <-]; exists units;
    (split; [first [ rewrite Hu1 | rewrite Hu2 | rewrite Hu3 ];
             apply list_elem_of_In; simpl; tauto |]);
    auto 10.
Qed.

(** X9. [main] accepts its configuration exactly when UNITS is unset or one
    of standard, imperial and metric, and LATITUDE, LONGITUDE and
    OPENWEATHER_API_KEY are all set; the units are checked first, so a wrong
    UNITS is the error reported whatever else is missing. *)
Theorem configure_accepts (Getenv : string → string) :
  ((∃ c : config, configure Getenv = inr c)
   ↔ Getenv "UNITS" ∈ [""; "standard"; "imperial"; "metric"]
     ∧ Getenv "LATITUDE" ≠ "" ∧ Getenv "LONGITUDE" ≠ ""
     ∧ Getenv "OPENWEATHER_API_KEY" ≠ "")
  ∧ (configure Getenv = inl "UNITS must be either standard, imperial, or metric"
     ↔ Getenv "UNITS" ∉ [""; "standard"; "imperial"; "metric"]).
Proof.
  assert (Hunits : ∀ u : string,
            u ∈ [""; "standard"; "imperial"; "metric"]
            ↔ (if String.eqb u "" then "standard" else u)
                ∈ ["standard"; "imperial"; "metric"]).
  { intros u. rewrite !list_elem_of_In. cbn [In].
    destruct (String.eqb_spec u "") as [->|Hne]; [tauto|].
    split; [intros [H|H]; [now elim Hne|tauto]|tauto]. }
  assert (Hbool : ∀ u : string,
            u ∈ ["standard"; "imperial"; "metric"]
            ↔ (negb (String.eqb u "standard") && negb (String.eqb u "imperial")
               && negb (String.eqb u "metric"))%bool = false).
  { intros u. rewrite list_elem_of_In. cbn [In].
    destruct (String.eqb_spec u "standard"), (String.eqb_spec u "imperial"),
             (String.eqb_spec u "metric"); cbn; intuition congruence. }
  split.
  - split.
    + intros [c Hc].
      destruct (configure_inr Getenv c Hc) as (units & Hin & -> & Hlat & Hlon & Hkey & _).
      rewrite Hunits. auto.
    + intros (Hu & Hlat & Hlon & Hkey). apply Hunits, Hbool in Hu.
      unfold configure. rewrite Hu.
      apply String.eqb_neq in Hlat, Hlon, Hkey. rewrite Hlat, Hlon, Hkey.
      cbn [orb]. eauto.
  - rewrite Hunits, Hbool. unfold configure.
    destruct (negb _ && negb _ && negb _)%bool.
    + split; [intros _; discriminate|reflexivity].
    + split; [|intros H; now elim H].
      destruct (_ || _ || _)%bool; discriminate.
Qed.

(** X10. The two URLs of an accepted configuration are different, and the
    pollution URL and the port do not depend on UNITS. *)
Theorem configured_urls (Getenv : string → string) (c : config) :
  configure Getenv = inr c →
  currentWeatherURL c ≠ pollutionURL c
  ∧ ∀ (units : string) (c' : config),
      configure (setenv "UNITS" units Getenv) = inr c' →
      pollutionURL c' = pollutionURL c ∧ exporterPort c' = exporterPort c.
Proof.
  intros Hc. destruct (configure_inr Getenv c Hc) as (u & _ & _ & _ & _ & _ & ->).
  split.
  - cbn. discriminate.
  - intros units c' Hc'.
    destruct (configure_inr _ c' Hc') as (u' & _ & _ & _ & _ & _ & ->).
    unfold setenv. cbn. split; reflexivity.
Qed.

Lemma configured_urls_witness :
  currentWeatherURL
    (mkConfig
       "https://api.openweathermap.org/data/2.5/weather?lat=32.27&lon=-112.73&appid=k3y&units=standard"
       "https://api.openweathermap.org/data/2.5/air_pollution?lat=32.27&lon=-112.73&appid=k3y"
       "8080")
  ≠ pollutionURL
      (mkConfig
         "https://api.openweathermap.org/data/2.5/weather?lat=32.27&lon=-112.73&appid=k3y&units=standard"
         "https://api.openweathermap.org/data/2.5/air_pollution?lat=32.27&lon=-112.73&appid=k3y"
         "8080").
Proof.
  apply (proj1 (configured_urls sampleEnv _ eq_refl)).
Defined.

(** ** Fields that a response leaves out *)

(** A part of the destination that no other field writes is kept by the
    members of an object none of whose keys is for [tag]. *)
Lemma object_keeps {T V : Type} (fields : list (field T)) (get : T → V)
    (tag : string) :
  (∀ (f : field T) (x : json) (v v' : T),
     In f fields → foldName f.1 ≠ foldName tag → f.2 x v = Ok v' → get v' = get v) →
  ∀ (members : list (string * json)) (v v' : T),
    (∀ (k : string) (x : json), (k, x) ∈ members → foldName k ≠ foldName tag) →
    object fields members v = Ok v' → get v' = get v.
Proof.
  intros Hfields members.
  induction members as [|[k x] members IH]; intros v v' Hno Hv.
  - injection Hv as <-. reflexivity.
  - cbn [object] in Hv.
    assert (Hrest : ∀ (k' : string) (y : json),
              (k', y) ∈ members → foldName k' ≠ foldName tag).
    { intros k' y Hin. apply (Hno k' y). now apply list_elem_of_further. }
    destruct (fieldFor fields k) as [f|] eqn:Ef.
    + destruct (f.2 x v) as [v1|e] eqn:E1; [|discriminate].
      cbn [mbind result_bind] in Hv. rewrite (IH v1 v' Hrest Hv).
      apply fieldFor_Some in Ef as [Hin Hk].
      apply (Hfields f x v v1 Hin); [|exact E1].
      rewrite Hk. apply (Hno k x). apply list_elem_of_here.
    + cbn [mbind result_bind] in Hv. now apply (IH v v').
Qed.

(** X11. A weather response object without a key for [main], [visibility],
    [wind] or [clouds] decodes, when it decodes, with the zero value in that
    field, and one without a key for [weather] with an empty condition list;
    a pollution response object without a key for [list] decodes with an
    empty list. *)
Theorem absent_fields_are_zero (members : list (string * json)) :
  (∀ weather : WeatherResponse.t,
     Decode WeatherResponse.decode WeatherResponse.zero (BodyJSON (JObject members))
       = Ok weather →
     ((∀ (k : string) (x : json), (k, x) ∈ members → foldName k ≠ foldName "main") →
      WeatherResponse.Main weather = Main.zero)
     ∧ ((∀ (k : string) (x : json),
           (k, x) ∈ members → foldName k ≠ foldName "visibility") →
        WeatherResponse.Visibility weather = float64_zero)
     ∧ ((∀ (k : string) (x : json), (k, x) ∈ members → foldName k ≠ foldName "wind") →
        WeatherResponse.Wind weather = Wind.zero)
     ∧ ((∀ (k : string) (x : json),
           (k, x) ∈ members → foldName k ≠ foldName "clouds") →
        WeatherResponse.Clouds weather = Clouds.zero)
     ∧ ((∀ (k : string) (x : json),
           (k, x) ∈ members → foldName k ≠ foldName "weather") →
        elems (WeatherResponse.Weather weather) = []))
  ∧ (∀ pollution : AirPollutionResponse.t,
       Decode AirPollutionResponse.decode AirPollutionResponse.zero
         (BodyJSON (JObject members)) = Ok pollution →
       (∀ (k : string) (x : json), (k, x) ∈ members → foldName k ≠ foldName "list") →
       elems (AirPollutionResponse.List pollution) = []).
Proof.
  split.
  - intros weather Hd. cbn [Decode] in Hd.
    unfold WeatherResponse.decode, decodeStruct in Hd.
    repeat split; intros Hno.
    + apply (object_keeps WeatherResponse.fields WeatherResponse.Main "main")
        with (members := members) (v := WeatherResponse.zero); try assumption.
      unfold WeatherResponse.fields. other_fields.
    + apply (object_keeps WeatherResponse.fields WeatherResponse.Visibility
               "visibility")
        with (members := members) (v := WeatherResponse.zero); try assumption.
      unfold WeatherResponse.fields. other_fields.
    + apply (object_keeps WeatherResponse.fields WeatherResponse.Wind "wind")
        with (members := members) (v := WeatherResponse.zero); try assumption.
      unfold WeatherResponse.fields. other_fields.
    + apply (object_keeps WeatherResponse.fields WeatherResponse.Clouds "clouds")
        with (members := members) (v := WeatherResponse.zero); try assumption.
      unfold WeatherResponse.fields. other_fields.
    + apply (object_keeps WeatherResponse.fields
               (λ v, elems (WeatherResponse.Weather v)) "weather")
        with (members := members) (v := WeatherResponse.zero); try assumption.
      unfold WeatherResponse.fields. other_fields.
  - intros pollution Hd Hno. cbn [Decode] in Hd.
    unfold AirPollutionResponse.decode, decodeStruct in Hd.
    apply (object_keeps AirPollutionResponse.fields
             (λ v, elems (AirPollutionResponse.List v)) "list")
      with (members := members) (v := AirPollutionResponse.zero); try assumption.
    unfold AirPollutionResponse.fields. other_fields.
Qed.

Lemma absent_fields_are_zero_witness :
  WeatherResponse.Visibility
    (match Decode WeatherResponse.decode WeatherResponse.zero
             (BodyJSON anonymousWeather) with
     | Ok weather => weather
     | Err _ => WeatherResponse.zero
     end) = float64_zero.
Proof.
  refine (proj1 (proj2 (proj1 (absent_fields_are_zero
            [ ("weather", JArray []);
              ("main", JObject [ ("temp", dyadic "15.5" 31 (-1)) ]) ])
            _ eq_refl)) _).
  intros k x Hin Hk.
  apply list_elem_of_In in Hin. cbn [In] in Hin.
  destruct Hin as [[= <- _]|[[= <- _]|[]]]; vm_compute in Hk; discriminate.
Defined.

(** ** Stations *)

(** [strconv.Itoa] gives different strings for different integers. *)
Lemma Itoa_inj (n m : Z) : Itoa n = Itoa m → n = m.
Proof.
  unfold Itoa. intros H.
  assert (Hnil : ∀ z : Z, Z.to_int z ≠ Decimal.Pos Decimal.Nil
                          ∧ Z.to_int z ≠ Decimal.Neg Decimal.Nil).
  { intros [|p|p]; cbn; split; try discriminate;
      intros [= Hp]; now apply (DecimalPos.Unsigned.to_uint_nonnil p). }
  apply (f_equal NilZero.int_of_string) in H.
  rewrite !NilZero.isi in H by apply Hnil.
  injection H as H. apply (f_equal Z.of_int) in H.
  now rewrite !DecimalZ.of_to in H.
Qed.

(** X12. The weather writes of two responses with different [id] go to
    different keys: the series of two stations never share an entry. *)
Theorem stations_apart (url1 url2 : string) (w1 w2 : world)
    (resp1 resp2 : Response) (weather1 weather2 : WeatherResponse.t) :
  network w1 (calls w1) url1 = inl resp1 →
  StatusCode resp1 = StatusOK →
  Decode WeatherResponse.decode WeatherResponse.zero (Body resp1) = Ok weather1 →
  network w2 (calls w2) url2 = inl resp2 →
  StatusCode resp2 = StatusOK →
  Decode WeatherResponse.decode WeatherResponse.zero (Body resp2) = Ok weather2 →
  WeatherResponse.ID weather1 ≠ WeatherResponse.ID weather2 →
  ∀ o1 o2 : observation,
    o1 ∈ sets (emitted (fetchWeatherData url1) w1) →
    o2 ∈ sets (emitted (fetchWeatherData url2) w2) →
    key o1 ≠ key o2.
Proof.
  intros E1 Hs1 Hd1 E2 Hs2 Hd2 Hid o1 o2.
  rewrite (emitted_after _ _ _ _ _
             (fetchWeatherData_ok url1 w1 resp1 weather1 E1 Hs1 Hd1)), sets_Get.
  rewrite (emitted_after _ _ _ _ _
             (fetchWeatherData_ok url2 w2 resp2 weather2 E2 Hs2 Hd2)), sets_Get.
  intros Ho1 Ho2 Hkey.
  pose proof (weatherWrites_station weather1) as H1.
  pose proof (weatherWrites_station weather2) as H2.
  rewrite Forall_forall in H1, H2.
  destruct (H1 o1 Ho1) as [Hst1 _]. destruct (H2 o2 Ho2) as [Hst2 _].
  unfold key in Hkey. injection Hkey as _ Hlvs. rewrite Hlvs, Hst2 in Hst1.
  injection Hst1 as Hst. apply Hid. symmetry. now apply Itoa_inj.
Qed.

Lemma stations_apart_witness :
  key (owWeatherTemp, ["42"], binary_normalize 53 1024 31 (-1) false)
  ≠ key (owWeatherTemp, ["0"], binary_normalize 53 1024 31 (-1) false).
Proof.
  refine (stations_apart "weather" "weather"
            (startWorld [inl (mkResponse 200 (BodyJSON sampleWeather))])
            (startWorld [inl (mkResponse 200 (BodyJSON anonymousWeather))])
            (mkResponse 200 (BodyJSON sampleWeather))
            (mkResponse 200 (BodyJSON anonymousWeather))
            (match Decode WeatherResponse.decode WeatherResponse.zero
                     (BodyJSON sampleWeather) with
             | Ok weather => weather
             | Err _ => WeatherResponse.zero
             end)
            (match Decode WeatherResponse.decode WeatherResponse.zero
                     (BodyJSON anonymousWeather) with
             | Ok weather => weather
             | Err _ => WeatherResponse.withID 1 WeatherResponse.zero
             end) _ _ _ _ _ _ _
            (owWeatherTemp, ["42"], binary_normalize 53 1024 31 (-1) false)
            (owWeatherTemp, ["0"], binary_normalize 53 1024 31 (-1) false) _ _);
    try reflexivity.
  - vm_compute. discriminate.
  - vm_compute. apply list_elem_of_here.
  - vm_compute. apply list_elem_of_here.
Defined.

(** ** The size of the registry *)

Lemma foldl_write_size (r : gmap (string * list string) float64)
    (obs : list observation) :
  (size r ≤ size (foldl write r obs) ≤ size r + length obs)%nat.
Proof.
  revert r. induction obs as [|o obs IH]; intros r; [cbn; lia|].
  cbn [foldl length]. specialize (IH (write r o)).
  assert (Hs : size (write r o)
               = match r !! key o with
                 | Some _ => size r
                 | None => S (size r)
                 end).
  { unfold write. rewrite map_size_insert. now destruct (r !! key o). }
  rewrite Hs in IH. destruct (r !! key o); lia.
Qed.

Lemma cycleTrace_size (weatherURL pollutionURL : string) (evs : list event) :
  cycleTrace weatherURL pollutionURL evs → (length (sets evs) ≤ 22)%nat.
Proof.
  intros [err|weather err|weather pollution].
  - cbn. lia.
  - pose proof (sets_cycle weatherURL pollutionURL (weatherWrites weather) []
                  [EvLog "Error fetching air pollution data: %v" err] eq_refl) as H.
    cbn [map app] in H. rewrite app_nil_r in H. rewrite H.
    unfold weatherWrites. rewrite length_app.
    destruct (elems (WeatherResponse.Weather weather)); cbn [length]; lia.
  - pose proof (sets_cycle weatherURL pollutionURL (weatherWrites weather)
                  (pollutionWrites (Itoa (WeatherResponse.ID weather)) pollution)
                  [] eq_refl) as H.
    rewrite app_nil_r in H. rewrite H.
    unfold weatherWrites, pollutionWrites. rewrite !length_app.
    destruct (elems (WeatherResponse.Weather weather)),
             (elems (AirPollutionResponse.List pollution)); cbn [length]; lia.
Qed.

(** X13. The registry never shrinks, and a cycle adds at most 22 entries to
    it: after [n] cycles it has at most [22 * n] entries more. *)
Theorem refreshes_growth (n : nat) (c : config) (w : world) :
  (size (registry w) ≤ size (registry (refreshes n c w).2)
   ≤ size (registry w) + 22 * n)%nat.
Proof.
  revert w. induction n as [|n IH]; intros w; [cbn; lia|].
  rewrite refreshes_S.
  specialize (IH (updateMetrics (currentWeatherURL c) (pollutionURL c) w).2).
  destruct (cycle_summary (currentWeatherURL c) (pollutionURL c) w)
    as (evs & Hevs & Hw).
  rewrite Hw in IH |- *. cbn [snd registry] in IH |- *.
  pose proof (cycleTrace_size _ _ _ Hevs).
  pose proof (foldl_write_size (registry w) (sets evs)). lia.
Qed.
